(** * yin-bot: the server-configuration store ([cogs/utils/db_utils.py])

    A shallow embedding of [PostgresController] and [parse_record], together
    with the part of the asyncpg driver and of PostgreSQL that the controller
    relies on: parameter binding, the two tables created by [make_tables],
    primary keys, [ON CONFLICT DO NOTHING], and the array operators [@>] and
    [||].

    Conventions.  Python values handed to the driver are [pyval]s; an
    exception is a [Raise e] result; every controller method is a
    computation in the monad [M], which threads the database and stops at the
    first exception.  Identifiers are Discord snowflakes and are taken to
    fit the integer columns, so the driver's range check on integers is left
    out.  Rows are created by the controller only, which never stores SQL
    NULL, so columns hold plain values. *)

From Stdlib Require Import ZArith Lia.
From stdpp Require Import base option list strings gmap.

(** ** Python values and exceptions *)

#[local] Set Warnings "-register-all".

Inductive pyval : Type :=
| PNone
| PInt (z : Z)
| PStr (s : string)
| PDatetime (t : Z)
| PList (l : list pyval).

Inductive exn : Type :=
| AttributeError
| ValueError
| KeyError
| TypeError
| InterfaceError
| DataError
| PostgresSyntaxError
| NotNullViolationError
| UniqueViolationError
| StringDataRightTruncationError
| ArraySubscriptError.

Inductive result (A : Type) : Type :=
| Ok (a : A)
| Raise (e : exn).

Arguments Ok {A} a.
Arguments Raise {A} e.

Definition rbind {A B} (r : result A) (k : A -> result B) : result B :=
  match r with
  | Ok a => k a
  | Raise e => Raise e
  end.

(** Python's [==] on the values above. *)
Fixpoint py_eqb (a b : pyval) : bool :=
  match a, b with
  | PNone, PNone => true
  | PInt x, PInt y => Z.eqb x y
  | PStr s, PStr t => String.eqb s t
  | PDatetime x, PDatetime y => Z.eqb x y
  | PList l, PList m =>
      (fix all2 (l m : list pyval) : bool :=
         match l, m with
         | [], [] => true
         | x :: l', y :: m' => py_eqb x y && all2 l' m'
         | _, _ => false
         end) l m
  | _, _ => false
  end.

(** [l.remove(x)] on a list: drops the first element equal to [x]. *)
Fixpoint remove_first (x : pyval) (l : list pyval) : list pyval :=
  match l with
  | [] => []
  | y :: l' => if py_eqb y x then l' else y :: remove_first x l'
  end.

(** [obj.remove(x)]: only lists have the method ([None.remove] is an
    [AttributeError]); a list without [x] raises [ValueError]. *)
Definition list_remove (obj x : pyval) : result pyval :=
  match obj with
  | PList l =>
      if existsb (fun y => py_eqb y x) l
      then Ok (PList (remove_first x l))
      else Raise ValueError
  | _ => Raise AttributeError
  end.

(** ** PostgreSQL arrays

    An array value is its list of dimensions and its elements in row-major
    order; the empty array has no dimension. *)

Record pgarray (A : Type) : Type := mkArray {
  dims : list nat;
  elems : list A
}.

Arguments mkArray {A} dims elems.
Arguments dims {A} p.
Arguments elems {A} p.

Definition empty_array {A} : pgarray A := mkArray [] [].

Definition product (ds : list nat) : nat := fold_right Nat.mul 1 ds.

(** The shape the driver computes for a (nested) list argument; ragged
    nesting is refused ('non-homogeneous array'). *)
Fixpoint shape (v : pyval) : option (list nat) :=
  match v with
  | PList l =>
      match map shape l with
      | [] => Some [0]
      | Some s :: ss =>
          if forallb (fun o => bool_decide (o = Some s)) ss
          then Some (length l :: s)
          else None
      | None :: _ => None
      end
  | _ => Some []
  end.

Fixpoint leaves (v : pyval) : list pyval :=
  match v with
  | PList l => concat (map leaves l)
  | x => [x]
  end.

Definition as_int (v : pyval) : option Z :=
  match v with PInt z => Some z | _ => None end.

Definition as_str (v : pyval) : option string :=
  match v with PStr s => Some s | _ => None end.

(** Binding a Python list to an array parameter.  The server turns an
    array without items into the empty array, whatever its shape. *)
Definition encode_array {A} (elem : pyval -> option A) (v : pyval)
  : result (pgarray A) :=
  match v with
  | PList _ =>
      match shape v, mapM elem (leaves v) with
      | Some ds, Some xs =>
          Ok (if product ds =? 0 then empty_array else mkArray ds xs)
      | _, _ => Raise DataError
      end
  | _ => Raise DataError
  end.

Fixpoint chunks {A} (size n : nat) (xs : list A) : list (list A) :=
  match n with
  | O => []
  | S n' => take size xs :: chunks size n' (drop size xs)
  end.

Fixpoint nest {A} (inj : A -> pyval) (ds : list nat) (xs : list A) : pyval :=
  match ds with
  | [] => match xs with x :: _ => inj x | [] => PNone end
  | n :: ds' => PList (map (nest inj ds') (chunks (product ds') n xs))
  end.

(** What the driver hands back for an array column: nested lists. *)
Definition decode_array {A} (inj : A -> pyval) (a : pgarray A) : pyval :=
  match dims a with
  | [] => PList []
  | ds => nest inj ds (elems a)
  end.

(** [a @> b]: every element of [b] occurs in [a]; dimensions play no part. *)
Definition array_contains (a b : pgarray Z) : bool :=
  forallb (fun x => existsb (Z.eqb x) (elems a)) (elems b).

(** [a || b]: an empty operand yields the other one; arrays of equal rank
    are joined along the first dimension, an array of rank one less is
    added as one more item, and anything else is refused. *)
Definition array_cat {A} (a b : pgarray A) : result (pgarray A) :=
  match dims a, dims b with
  | [], _ :: _ => Ok b
  | _, [] => Ok a
  | d1 :: t1, d2 :: t2 =>
      if bool_decide (t1 = t2)
      then Ok (mkArray (d1 + d2 :: t1) (elems a ++ elems b))
      else if bool_decide (d1 :: t1 = t2)
      then Ok (mkArray (S d2 :: t2) (elems a ++ elems b))
      else if bool_decide (t1 = d2 :: t2)
      then Ok (mkArray (S d1 :: t1) (elems a ++ elems b))
      else Raise ArraySubscriptError
  end.

(** ** The database

    The two tables of [make_tables].  [current_timestamp] is the server
    clock as the next statement will read it. *)

Record ServerConfig : Type := mkServerConfig {
  serverid : Z;
  prefix : string;
  assignableroles : pgarray Z;
  filterwordswhite : pgarray string;
  filterwordsblack : pgarray string;
  blacklistchannels : pgarray Z;
  r9kchannels : pgarray Z;
  addtime : Z
}.

Record ModerationAction : Type := mkModerationAction {
  mod_serverid : Z;
  modid : Z;
  targetid : Z;
  action : Z;
  logtime : Z
}.

Record Database : Type := mkDatabase {
  servers : list ServerConfig;
  moderation : list ModerationAction;
  current_timestamp : Z
}.

Definition set_servers (db : Database) (rows : list ServerConfig) : Database :=
  mkDatabase rows (moderation db) (current_timestamp db).

Definition set_moderation (db : Database) (rows : list ModerationAction)
  : Database :=
  mkDatabase (servers db) rows (current_timestamp db).

Definition set_assignableroles (a : pgarray Z) (s : ServerConfig)
  : ServerConfig :=
  mkServerConfig (serverid s) (prefix s) a (filterwordswhite s)
    (filterwordsblack s) (blacklistchannels s) (r9kchannels s) (addtime s).

Definition set_prefix_column (p : string) (s : ServerConfig) : ServerConfig :=
  mkServerConfig (serverid s) p (assignableroles s) (filterwordswhite s)
    (filterwordsblack s) (blacklistchannels s) (r9kchannels s) (addtime s).

Definition has_serverid (g : Z) (s : ServerConfig) : bool :=
  Z.eqb (serverid s) g.

Definition same_modkey (a b : ModerationAction) : bool :=
  Z.eqb (mod_serverid a) (mod_serverid b) && Z.eqb (modid a) (modid b)
  && Z.eqb (targetid a) (targetid b) && Z.eqb (action a) (action b).

(** Rows of [servers] for guild [g]; the primary key allows one at most. *)
Definition count_servers (db : Database) (g : Z) : nat :=
  length (List.filter (has_serverid g) (servers db)).

Definition server_row (db : Database) (g : Z) : option ServerConfig :=
  find (has_serverid g) (servers db).

Definition primary_key_ok (db : Database) : Prop :=
  NoDup (map serverid (servers db)).

(** ** Rows as the driver returns them *)

Definition Record_ : Type := list (string * pyval).

Definition server_record (s : ServerConfig) : Record_ :=
  [ ("serverid", PInt (serverid s));
    ("prefix", PStr (prefix s));
    ("assignableroles", decode_array PInt (assignableroles s));
    ("filterwordswhite", decode_array PStr (filterwordswhite s));
    ("filterwordsblack", decode_array PStr (filterwordsblack s));
    ("blacklistchannels", decode_array PInt (blacklistchannels s));
    ("r9kchannels", decode_array PInt (r9kchannels s));
    ("addtime", PDatetime (addtime s)) ]%string.

Definition project (cols : list string) (r : Record_) : Record_ :=
  omap (fun c => (fun v => (c, v)) <$> (snd <$> find (fun kv => String.eqb (fst kv) c) r))
       cols.

(** [row[key]] *)
Definition getitem (r : Record_) (key : string) : result pyval :=
  match find (fun kv => String.eqb (fst kv) key) r with
  | Some kv => Ok (snd kv)
  | None => Raise KeyError
  end.

(** [record.values()] *)
Definition values (r : Record_) : list pyval := map snd r.

(** ** The statements the controller sends

    One constructor per SQL text of [db_utils.py]; [InsertModeration n] is
    the text with [n] placeholders in its VALUES list (the controller's has
    three). *)

Inductive sql : Type :=
| InsertModeration (n : nat)
    (* INSERT INTO moderation VALUES ($1, ..., $n); *)
| InsertServer
    (* INSERT INTO servers VALUES ($1, $2, $3, $4, $5, $6, $7)
       ON CONFLICT (serverid) DO nothing; *)
| SelectPrefixes
    (* SELECT serverid, prefix FROM servers; *)
| SelectServerHavingRole
    (* SELECT * FROM servers
       WHERE serverid = $1 AND assignableroles @> $2; *)
| AppendRoles
    (* UPDATE servers SET assignableroles = assignableroles || $1
       WHERE serverid = $2; *)
| SelectRolesHavingRole
    (* SELECT assignableroles FROM servers
       WHERE serverid = $1 AND assignableroles @> $2; *)
| SetRoles
    (* UPDATE servers SET assignableroles = $1 WHERE serverid = $2; *)
| SelectRoles.
    (* SELECT assignableroles FROM servers WHERE serverid = $1; *)

(** The number of parameters the server reports for a prepared statement. *)
Definition placeholders (q : sql) : nat :=
  match q with
  | InsertModeration n => n
  | InsertServer => 7
  | SelectPrefixes => 0
  | SelectServerHavingRole => 2
  | AppendRoles => 2
  | SelectRolesHavingRole => 2
  | SetRoles => 2
  | SelectRoles => 1
  end.

(** Preparing: [moderation] has five columns, so a longer VALUES list (or
    an empty one) does not parse. *)
Definition prepare (q : sql) : result unit :=
  match q with
  | InsertModeration n =>
      if (n =? 0) || (5 <? n) then Raise PostgresSyntaxError else Ok tt
  | _ => Ok tt
  end.

Definition int_param (v : pyval) : result Z :=
  match v with PInt z => Ok z | _ => Raise DataError end.

Definition text_param (v : pyval) : result string :=
  match v with PStr s => Ok s | _ => Raise DataError end.

Definition timestamp_param (v : pyval) : result Z :=
  match v with PDatetime t => Ok t | _ => Raise DataError end.

Fixpoint traverse {A B} (f : A -> result B) (l : list A) : result (list B) :=
  match l with
  | [] => Ok []
  | x :: l' =>
      rbind (f x) (fun y => rbind (traverse f l') (fun ys => Ok (y :: ys)))
  end.

(** UPDATE servers SET ... WHERE ...: every matching row is rewritten, and
    one failing row fails the statement. *)
Definition update_where (cond : ServerConfig -> bool)
    (f : ServerConfig -> result ServerConfig) (rows : list ServerConfig)
  : result (list ServerConfig) :=
  traverse (fun s => if cond s then f s else Ok s) rows.

(** INSERT INTO moderation: columns left out take their default, which is
    NULL for the key columns (refused by the primary key) and the clock for
    [logtime]; a key already present is refused. *)
Definition insert_moderation (vals : list pyval) (db : Database)
  : result Database :=
  rbind (traverse int_param (take 4 vals)) (fun key =>
  rbind (traverse timestamp_param (drop 4 vals)) (fun rest =>
  match key with
  | [g; m; t; a] =>
      let row := mkModerationAction g m t a
                   (match rest with lt :: _ => lt | [] => current_timestamp db end) in
      if existsb (same_modkey row) (moderation db)
      then Raise UniqueViolationError
      else Ok (set_moderation db (moderation db ++ [row]))
  | _ => Raise NotNullViolationError
  end)).

(** INSERT INTO servers ... ON CONFLICT (serverid) DO nothing: the eighth
    column, [addtime], takes the clock. *)
Definition insert_server (vals : list pyval) (db : Database)
  : result Database :=
  match vals with
  | [v1; v2; v3; v4; v5; v6; v7] =>
      rbind (int_param v1) (fun g =>
      rbind (text_param v2) (fun p =>
      rbind (encode_array as_int v3) (fun roles =>
      rbind (encode_array as_str v4) (fun white =>
      rbind (encode_array as_str v5) (fun black =>
      rbind (encode_array as_int v6) (fun blacklist =>
      rbind (encode_array as_int v7) (fun r9k =>
      if 2 <? String.length p then Raise StringDataRightTruncationError
      else if existsb (has_serverid g) (servers db) then Ok db
      else Ok (set_servers db
                 (servers db ++
                  [mkServerConfig g p roles white black blacklist r9k
                     (current_timestamp db)])))))))))
  | _ => Raise InterfaceError
  end.

(** Running a statement: the rows it returns and the database after it.  A
    statement that fails changes nothing. *)
Definition run (q : sql) (args : list pyval) (db : Database)
  : result (list Record_ * Database) :=
  rbind (prepare q) (fun _ =>
  if negb (length args =? placeholders q) then Raise InterfaceError else
  match q, args with
  | InsertModeration _, _ =>
      rbind (insert_moderation args db) (fun db' => Ok ([], db'))
  | InsertServer, _ =>
      rbind (insert_server args db) (fun db' => Ok ([], db'))
  | SelectPrefixes, _ =>
      Ok (map (fun s => project ["serverid"; "prefix"]%string (server_record s))
              (servers db), db)
  | SelectServerHavingRole, [v1; v2] =>
      rbind (int_param v1) (fun g =>
      rbind (encode_array as_int v2) (fun a =>
      Ok (map server_record
            (List.filter (fun s => has_serverid g s
                                   && array_contains (assignableroles s) a)
               (servers db)), db)))
  | AppendRoles, [v1; v2] =>
      rbind (encode_array as_int v1) (fun a =>
      rbind (int_param v2) (fun g =>
      rbind (update_where (has_serverid g)
               (fun s => rbind (array_cat (assignableroles s) a)
                           (fun a' => Ok (set_assignableroles a' s)))
               (servers db)) (fun rows =>
      Ok ([], set_servers db rows))))
  | SelectRolesHavingRole, [v1; v2] =>
      rbind (int_param v1) (fun g =>
      rbind (encode_array as_int v2) (fun a =>
      Ok (map (fun s => project ["assignableroles"]%string (server_record s))
            (List.filter (fun s => has_serverid g s
                                   && array_contains (assignableroles s) a)
               (servers db)), db)))
  | SetRoles, [v1; v2] =>
      rbind (encode_array as_int v1) (fun a =>
      rbind (int_param v2) (fun g =>
      rbind (update_where (has_serverid g)
               (fun s => Ok (set_assignableroles a s)) (servers db))
            (fun rows => Ok ([], set_servers db rows))))
  | SelectRoles, [v1] =>
      rbind (int_param v1) (fun g =>
      Ok (map (fun s => project ["assignableroles"]%string (server_record s))
            (List.filter (has_serverid g) (servers db)), db))
  | _, _ => Raise InterfaceError
  end).

(** ** Computations over the database *)

Definition M (A : Type) : Type := Database -> result A * Database.

Definition ret {A} (a : A) : M A := fun db => (Ok a, db).

Definition bind {A B} (m : M A) (k : A -> M B) : M B :=
  fun db =>
    match m db with
    | (Ok a, db') => k a db'
    | (Raise e, db') => (Raise e, db')
    end.

Definition lift {A} (r : result A) : M A := fun db => (r, db).

Notation "'let*' x ':=' m 'in' k" := (bind m (fun x => k))
  (at level 10, x name, m at level 100, k at level 200).

(** ** The connection pool *)

Definition pool_run (q : sql) (args : list pyval) : M (list Record_) :=
  fun db =>
    match run q args db with
    | Ok (rows, db') => (Ok rows, db')
    | Raise e => (Raise e, db)
    end.

(** [pool.execute(sql, *args)]: the command's status is of no use to the
    controller and is not kept. *)
Definition pool_execute (q : sql) (args : list pyval) : M unit :=
  let* _ := pool_run q args in ret tt.

(** [pool.fetch(sql, *args)]: all rows. *)
Definition pool_fetch (q : sql) (args : list pyval) : M (list Record_) :=
  pool_run q args.

(** [pool.fetchrow(sql, *args)]: the first row, or [None]. *)
Definition pool_fetchrow (q : sql) (args : list pyval) : M (option Record_) :=
  let* rows := pool_run q args in ret (head rows).

(** [pool.fetchval(sql, *args)]: the first column of the first row, or
    [None]. *)
Definition pool_fetchval (q : sql) (args : list pyval) : M pyval :=
  let* rows := pool_run q args in
  ret (match rows with
       | ((_, v) :: _) :: _ => v
       | _ => PNone
       end).

(** ** [parse_record] *)

(** What [parse_record] may be handed: a row of the driver, or any other
    value ([None] when a query found nothing). *)
Inductive pyobj : Type :=
| ORecord (r : Record_)
| OValue (v : pyval).

(** [record.values()]: rows have the method, the values of [pyval] do not. *)
Definition call_values (record : pyobj) : result (list pyval) :=
  match record with
  | ORecord r => Ok (values r)
  | OValue _ => Raise AttributeError
  end.

Definition parse_record (record : pyobj) : result (option (list pyval)) :=
  match call_values record with
  | Ok vs => Ok (Some vs)
  | Raise AttributeError => Ok None
  | Raise e => Raise e
  end.

(** ** [PostgresController]

    The controller's fields ([pool], [schema], [logger]) carry no state of
    their own: the tables of its schema are the [Database] threaded by [M].
    A method that falls off its end returns [None]. *)

Section Enums.

(** [cogs/utils/enums.py] is not part of the sources at hand: the [Action]
    enumeration and the outcome of reading [action_type.Value] are
    parameters. *)
Variable Action : Type.
Variable attr_Value : Action -> result pyval.

Definition insert_modaction (guild_id mod_id target_id : Z)
    (action_type : Action) : M pyval :=
  let sql := InsertModeration 3 in
  let* value := lift (attr_Value action_type) in
  let* _ := pool_execute sql
              [PInt guild_id; PInt mod_id; PInt target_id; value] in
  ret PNone.

End Enums.

Definition add_server (guild_id : Z) : M pyval :=
  let sql := InsertServer in
  let* _ := pool_execute sql
              [PInt guild_id; PStr "-"; PList []; PList []; PList [];
               PList []; PList []] in
  ret PNone.

(** [prefix_dict[key] = value]; the keys are the integers of [serverid]. *)
Definition setitem (d : gmap Z pyval) (key value : pyval)
  : result (gmap Z pyval) :=
  match key with
  | PInt z => Ok (<[z := value]> d)
  | _ => Raise TypeError
  end.

Fixpoint for_each {A S} (l : list A) (acc : S) (body : S -> A -> result S)
  : result S :=
  match l with
  | [] => Ok acc
  | x :: l' => rbind (body acc x) (fun acc' => for_each l' acc' body)
  end.

Definition get_server_prefix : M (gmap Z pyval) :=
  let prefix_dict : gmap Z pyval := ∅ in
  let sql := SelectPrefixes in
  let* val_list := pool_fetch sql [] in
  lift (for_each val_list prefix_dict (fun prefix_dict row =>
          rbind (getitem row "prefix") (fun value =>
          rbind (getitem row "serverid") (fun key =>
          setitem prefix_dict key value)))).

(** [True if row else False]: a row is true when it has a column. *)
Definition truthy (row : option Record_) : bool :=
  match row with
  | Some (_ :: _) => true
  | _ => false
  end.

Definition is_role_assignable (guild_id role_id : Z) : M bool :=
  let sql := SelectServerHavingRole in
  let* row := pool_fetchrow sql [PInt guild_id; PList [PInt role_id]] in
  ret (truthy row).

Definition add_assignable_role (guild_id role_id : Z) : M pyval :=
  let sql := AppendRoles in
  let* _ := pool_execute sql [PList [PInt role_id]; PInt guild_id] in
  ret PNone.

Definition remove_assignable_role (guild_id role_id : Z) : M pyval :=
  let sql := SelectRolesHavingRole in
  let* role_list := pool_fetchval sql [PInt guild_id; PList [PInt role_id]] in
  let* role_list := lift (list_remove role_list (PInt role_id)) in
  let sql := SetRoles in
  let* _ := pool_execute sql [PList [role_list]; PInt guild_id] in
  ret PNone.

Definition get_assignable_roles (guild_id : Z) : M pyval :=
  let sql := SelectRoles in
  let* role_list := pool_fetchval sql [PInt guild_id] in
  ret role_list.

(** Modelled from the spec: [PostgresController.set_prefix], which
    [Admin.change] calls with the guild and the new prefix and whose result
    it reads as success, but which [db_utils.py] does not define.  The row
    of the guild is updated; an unknown guild is reported by a false result,
    and an error of the storage (here: a prefix that does not fit
    [varchar(2)]) reaches the caller as the exception it is.  The bound on
    the prefix is not checked before the statement is sent. *)
Definition set_prefix (guild_id : Z) (new_prefix : string) : M bool :=
  fun db =>
    if negb (existsb (has_serverid guild_id) (servers db)) then (Ok false, db)
    else if 2 <? String.length new_prefix
    then (Raise StringDataRightTruncationError, db)
    else (Ok true,
          set_servers db
            (map (fun s => if has_serverid guild_id s
                           then set_prefix_column new_prefix s else s)
               (servers db))).

(** ** Start-up: [make_tables] and [get_instance]

    What the server and the driver do at start-up is not decided by the
    controller: making a pool and running a statement of the schema are
    parameters, each free to fail.  A failure is an [AssertionError], an
    [InterfaceError] of the driver (or of a subclass) with its text, or any
    other exception. *)

Inductive failure : Type :=
| AssertionError (msg : string)
| DriverInterfaceError (msg : string)
| OtherException (msg : string).

Inductive outcome (A : Type) : Type :=
| Done (a : A)
| Failed (f : failure).

Arguments Done {A} a.
Arguments Failed {A} f.

Inductive level : Type := INFO | ERROR.

(** The three statements of [make_tables], with the schema put in by
    [format]. *)
Definition create_schema_sql (schema : string) : string :=
  "CREATE SCHEMA IF NOT EXISTS " ++ schema ++ ";".

Definition moderation_sql (schema : string) : string :=
  "
    CREATE TABLE IF NOT EXISTS " ++ schema ++ ".moderation (
      serverid BIGINT,
      modid BIGINT,
      targetid BIGINT,
      action SMALLINT,
      logtime TIMESTAMP DEFAULT current_timestamp,
      PRIMARY KEY (serverid, modid, targetid, action)
    );
    ".

Definition servers_sql (schema : string) : string :=
  "
    CREATE TABLE IF NOT EXISTS " ++ schema ++ ".servers (
      serverid BIGINT,
      prefix varchar(2),
      assignableroles bigint ARRAY,
      filterwordswhite varchar ARRAY,
      filterwordsblack varchar ARRAY,
      blacklistchannels integer ARRAY,
      r9kchannels integer ARRAY,
      addtime TIMESTAMP DEFAULT current_timestamp,
      PRIMARY KEY (serverid)
    );".

Section StartUp.

Variable Pool : Type.
Variable Logger : Type.
Variable Server : Type.

(** [create_pool], called with the items of [connect_kwargs]. *)
Variable create_pool : list (string * pyval) -> outcome Pool.

(** [pool.execute(text)] for a statement without arguments, on the state of
    the server. *)
Variable execute_text : Pool -> string -> Server -> outcome unit * Server.

Definition make_tables (pool : Pool) (schema : string) (sv : Server)
  : outcome unit * Server :=
  match execute_text pool (create_schema_sql schema) sv with
  | (Failed f, sv1) => (Failed f, sv1)
  | (Done _, sv1) =>
      let moderation := moderation_sql schema in
      let servers := servers_sql schema in
      match execute_text pool moderation sv1 with
      | (Failed f, sv2) => (Failed f, sv2)
      | (Done _, sv2) => execute_text pool servers sv2
      end
  end.

Record PostgresController : Type := mkPostgresController {
  pool : Pool;
  schema : string;
  logger : Logger
}.

(** The server and the records the logger has received. *)
Record World : Type := mkWorld {
  server : Server;
  records : list (level * string)
}.

Definition log (lv : level) (msg : string) (w : World) : World :=
  mkWorld (server w) (records w ++ [(lv, msg)]).

(** A dict is true when it has an item; [None] is false. *)
Definition dict_truthy (d : option (list (string * pyval))) : bool :=
  match d with
  | Some (_ :: _) => true
  | _ => false
  end.

Definition get_instance (logger : option Logger)
    (connect_kwargs : option (list (string * pyval))) (pool : option Pool)
    (schema : string) (w : World) : outcome PostgresController * World :=
  match logger with
  | None =>
      (Failed (AssertionError
                 "Please provide a logger to the data_controller"), w)
  | Some logger =>
      if negb (dict_truthy connect_kwargs || bool_decide (is_Some pool))
      then (Failed (AssertionError
                      ("Please either provide a connection pool or "
                       ++ "a dict of connection data for creating a new "
                       ++ "connection pool.")), w)
      else
        let made :=
          match pool with
          | Some pool => (Done pool, w)
          | None =>
              match create_pool (default [] connect_kwargs) with
              | Done pool => (Done pool, log INFO "Connection pool made." w)
              | Failed (DriverInterfaceError msg) =>
                  (Failed (DriverInterfaceError msg), log ERROR msg w)
              | Failed f => (Failed f, w)
              end
          end in
        match made with
        | (Failed f, w1) => (Failed f, w1)
        | (Done pool, w1) =>
            let w2 := log INFO "Creating tables..." w1 in
            match make_tables pool schema (server w2) with
            | (Failed f, sv) => (Failed f, mkWorld sv (records w2))
            | (Done _, sv) =>
                (Done (mkPostgresController pool schema logger),
                 log INFO "Tables created." (mkWorld sv (records w2)))
            end
        end
  end.

End StartUp.

Arguments pool {Pool Logger} p.
Arguments schema {Pool Logger} p.
Arguments logger {Pool Logger} p.
Arguments mkPostgresController {Pool Logger} pool schema logger.
Arguments server {Server} w.
Arguments records {Server} w.
Arguments mkWorld {Server} server records.

(** ** [cogs/admin.py]: the bodies of the command handlers

    A handler works on a session: the database behind the controller, the
    bot's [server_settings] (a dict of dicts, by guild) and the embeds sent
    to the channel so far.  [ctx.send] is taken to succeed.  A [str] is a
    [string] of characters with code points below 256.  The controller's
    [set_prefix], [add_modlog_channel] and [rem_modlog_channel] are not in
    [db_utils.py]; the handlers are modelled for any behaviour of these
    calls, raising included (the logger they are also handed has no part
    in it). *)

(** The characters [str.strip()] removes. *)
Definition py_isspace (c : Ascii.ascii) : bool :=
  let n := Ascii.nat_of_ascii c in
  ((9 <=? n) && (n <=? 13)) || ((28 <=? n) && (n <=? 32))
  || (n =? 133) || (n =? 160).

Fixpoint lstrip (s : string) : string :=
  match s with
  | String c s' => if py_isspace c then lstrip s' else s
  | EmptyString => EmptyString
  end.

Definition strip (s : string) : string :=
  String.rev (lstrip (String.rev (lstrip s))).

Record Embed : Type := mkEmbed {
  title : string;
  description : string;
  color : Z
}.

Record Channel : Type := mkChannel {
  channel_id : Z;
  channel_name : string
}.

Record Session : Type := mkSession {
  database : Database;
  server_settings : gmap Z (gmap string pyval);
  sent : list Embed
}.

(** [await ctx.send(embed=local_embed)] *)
Definition send (local_embed : Embed) (ss : Session) : Session :=
  mkSession (database ss) (server_settings ss) (sent ss ++ [local_embed]).

Definition set_database (ss : Session) (db : Database) : Session :=
  mkSession db (server_settings ss) (sent ss).

(** [server_settings[guild_id]['prefix'] = prefix]: a guild without
    settings is a [KeyError]. *)
Definition cache_prefix (guild_id : Z) (new_prefix : string) (ss : Session)
  : result unit * Session :=
  match server_settings ss !! guild_id with
  | Some settings =>
      (Ok tt,
       mkSession (database ss)
         (<[guild_id := <["prefix"%string := PStr new_prefix]> settings]>
            (server_settings ss))
         (sent ss))
  | None => (Raise KeyError, ss)
  end.

(** [try: ... except Exception as e: local_embed = ...]: whatever the body
    raises is caught; the embeds the handlers build in the body and in the
    handler of the exception are sent nowhere, so they are left out.  The
    session is as the body left it. *)
Definition except_Exception (body : result unit * Session)
  : result unit * Session :=
  match body with
  | (Ok _, ss) => (Ok tt, ss)
  | (Raise _, ss) => (Ok tt, ss)
  end.

Module Admin.

Section Handlers.

Variable controller_set_prefix : Z -> string -> M bool.
Variable controller_add_modlog_channel : Z -> Z -> M bool.
Variable controller_rem_modlog_channel : Z -> Z -> M bool.

(** [Admin.change(ctx, prefix)], with [guild_id] for [ctx.guild.id]. *)
Definition change (guild_id : Z) (new_prefix : string) (ss : Session)
  : result unit * Session :=
  if 2 <? String.length (strip new_prefix) then
    let local_embed :=
      mkEmbed "Prefix must be less than or equal to two characters" " "
        0x651111 in
    (Ok tt, send local_embed ss)
  else
    except_Exception
      (match controller_set_prefix guild_id new_prefix (database ss) with
       | (Raise e, db) => (Raise e, set_database ss db)
       | (Ok success, db) =>
           if success
           then cache_prefix guild_id new_prefix (set_database ss db)
           else (Ok tt, set_database ss db)
       end).

(** The loop of [Admin.add] and [Admin.remove] over the mentioned channels:
    the names of those the controller reports as changed. *)
Fixpoint each_mention (call : Z -> Z -> M bool) (guild_id : Z)
    (channel_mentions : list Channel) (changed : list string)
  : M (list string) :=
  match channel_mentions with
  | [] => ret changed
  | channel :: rest =>
      let* success := call guild_id (channel_id channel) in
      each_mention call guild_id rest
        (if success then changed ++ [channel_name channel] else changed)
  end.

(** What follows the loop: the description is built from [channel.name]
    for each collected name, which is a [str] and has no such attribute. *)
Definition describe (changed : list string) : result unit :=
  match changed with
  | _ :: _ => Raise AttributeError
  | [] => Ok tt
  end.

Definition modlog_body (call : Z -> Z -> M bool)
    (guild_id : Z) (channel_mentions : list Channel) (ss : Session)
  : result unit * Session :=
  match channel_mentions with
  | [] =>
      let local_embed :=
        mkEmbed "No channel mentions detected, try again." " " 0x651111 in
      (Ok tt, send local_embed ss)
  | _ =>
      except_Exception
        (match each_mention call guild_id channel_mentions [] (database ss) with
         | (Raise e, db) => (Raise e, set_database ss db)
         | (Ok changed, db) => (describe changed, set_database ss db)
         end)
  end.

(** [Admin.add(ctx, channels)] *)
Definition add (guild_id : Z) (channel_mentions : list Channel)
  : Session -> result unit * Session :=
  modlog_body controller_add_modlog_channel guild_id channel_mentions.

(** [Admin.remove(ctx, channels)] *)
Definition remove (guild_id : Z) (channel_mentions : list Channel)
  : Session -> result unit * Session :=
  modlog_body controller_rem_modlog_channel guild_id channel_mentions.

End Handlers.

End Admin.

(** ** Databases and arrays the properties speak of *)

Definition empty_db : Database := mkDatabase [] [] 0.

Definition default_row (g t : Z) : ServerConfig :=
  mkServerConfig g "-" empty_array empty_array empty_array empty_array
    empty_array t.

Definition roles_row (g : Z) (roles : pgarray Z) : ServerConfig :=
  set_assignableroles roles (default_row g 0).

(** The one-dimensional array of the roles [xs]. *)
Definition array1 (xs : list Z) : pgarray Z :=
  match xs with
  | [] => empty_array
  | _ => mkArray [length xs] xs
  end.

(** The array the server stores when handed the list [xs] wrapped in one
    more list, as [remove_assignable_role] does. *)
Definition array2 (xs : list Z) : pgarray Z :=
  match xs with
  | [] => empty_array
  | _ => mkArray [1; length xs] xs
  end.

(** The mapping [get_server_prefix] builds from the rows, in their order. *)
Definition prefix_entries (rows : list ServerConfig) (d : gmap Z pyval)
  : gmap Z pyval :=
  fold_left (fun d s => <[serverid s := PStr (prefix s)]> d) rows d.

(** What the UPDATE of [add_assignable_role] does to one row of the guild:
    [assignableroles || $1] with the one-item array of the role. *)
Definition append_role (r : Z) (s : ServerConfig) : result ServerConfig :=
  rbind (array_cat (assignableroles s) (mkArray [1] [r]))
    (fun a' => Ok (set_assignableroles a' s)).

(** [same_elsewhere g db db']: from [db] to [db'] the rows of every guild
    but [g], the moderation log and the clock are the same. *)
Definition same_elsewhere (g : Z) (db db' : Database) : Prop :=
  (forall g', g' <> g -> server_row db' g' = server_row db g')
  /\ moderation db' = moderation db
  /\ current_timestamp db' = current_timestamp db.

(** [xs] without the first occurrence of [r]. *)
Fixpoint remove1 (r : Z) (xs : list Z) : list Z :=
  match xs with
  | [] => []
  | y :: xs' => if Z.eqb y r then xs' else y :: remove1 r xs'
  end.

(** The same tables, seen when the server clock shows [t]. *)
Definition at_time (t : Z) (db : Database) : Database :=
  mkDatabase (servers db) (moderation db) t.

(** [absent g rows]: no row of [rows] belongs to guild [g]. *)
Definition absent (g : Z) (rows : list ServerConfig) : Prop :=
  Forall (fun s => has_serverid g s = false) rows.

(** [only_row rows g s]: [s] is the row of guild [g], and the only one. *)
Definition only_row (rows : list ServerConfig) (g : Z) (s : ServerConfig)
  : Prop :=
  exists l1 l2, rows = l1 ++ s :: l2 /\ absent g l1 /\ absent g l2
                /\ serverid s = g.

(** * Properties *)

(** ** Results and lists *)

Lemma traverse_app {A B} (f : A -> result B) (l1 l2 : list A) :
  traverse f (l1 ++ l2) =
  rbind (traverse f l1) (fun ys1 =>
  rbind (traverse f l2) (fun ys2 => Ok (ys1 ++ ys2))).
Proof.
  induction l1 as [|x l1 IH]; simpl.
  - destruct (traverse f l2); reflexivity.
  - destruct (f x) as [y|e]; simpl; [|reflexivity].
    rewrite IH. destruct (traverse f l1); simpl; [|reflexivity].
    destruct (traverse f l2); reflexivity.
Qed.

Lemma update_where_absent g f rows :
  absent g rows -> update_where (has_serverid g) f rows = Ok rows.
Proof.
  unfold update_where. induction 1 as [|s rows Hs _ IH]; simpl.
  - reflexivity.
  - rewrite Hs. simpl. rewrite IH. reflexivity.
Qed.

Lemma filter_absent g (P : ServerConfig -> bool) rows :
  absent g rows ->
  List.filter (fun s => has_serverid g s && P s) rows = [].
Proof.
  induction 1 as [|s rows Hs _ IH]; simpl.
  - reflexivity.
  - rewrite Hs. simpl. exact IH.
Qed.

Lemma filter_absent_key g rows :
  absent g rows -> List.filter (has_serverid g) rows = [].
Proof.
  induction 1 as [|s rows Hs _ IH]; simpl.
  - reflexivity.
  - rewrite Hs. exact IH.
Qed.

Lemma existsb_absent g rows :
  absent g rows -> existsb (has_serverid g) rows = false.
Proof.
  induction 1 as [|s rows Hs _ IH]; simpl.
  - reflexivity.
  - rewrite Hs. exact IH.
Qed.

Lemma server_row_absent db g :
  server_row db g = None <-> absent g (servers db).
Proof.
  unfold server_row, absent. induction (servers db) as [|s rows IH]; simpl.
  - split; [constructor | reflexivity].
  - destruct (has_serverid g s) eqn:Hs.
    + split; [discriminate|]. intros H. inversion H; congruence.
    + split.
      * intros H. constructor; [assumption | apply IH, H].
      * intros H. inversion H; subst. apply IH. assumption.
Qed.

Lemma set_servers_same db : set_servers db (servers db) = db.
Proof. destruct db; reflexivity. Qed.

Lemma has_serverid_eq g s : has_serverid g s = true <-> serverid s = g.
Proof. unfold has_serverid. apply Z.eqb_eq. Qed.

Lemma has_serverid_neq g s : has_serverid g s = false <-> serverid s <> g.
Proof. unfold has_serverid. apply Z.eqb_neq. Qed.

Lemma absent_not_in g rows :
  absent g rows <-> ~ In g (map serverid rows).
Proof.
  unfold absent. induction rows as [|s rows IH]; simpl.
  - split; [tauto | constructor].
  - split.
    + intros H. inversion H as [|? ? Hs Hr]; subst.
      apply has_serverid_neq in Hs. apply IH in Hr. tauto.
    + intros H. constructor.
      * apply has_serverid_neq. tauto.
      * apply IH. tauto.
Qed.

(** Under the primary key, the row found for a guild is its only row. *)
Lemma primary_key_only_row db g s :
  primary_key_ok db -> server_row db g = Some s ->
  only_row (servers db) g s.
Proof.
  unfold primary_key_ok, server_row, only_row.
  induction (servers db) as [|x rows IH]; simpl; [discriminate|].
  intros Hnd Hfind. apply NoDup_cons in Hnd as [Hx Hnd].
  destruct (has_serverid g x) eqn:Hgx.
  - injection Hfind as ->. apply has_serverid_eq in Hgx.
    exists [], rows. repeat split; [constructor | | assumption].
    apply absent_not_in. rewrite <- Hgx. rewrite <- list_elem_of_In. exact Hx.
  - destruct (IH Hnd Hfind) as (l1 & l2 & -> & H1 & H2 & Hs).
    exists (x :: l1), l2. repeat split; try assumption.
    constructor; assumption.
Qed.

Lemma only_row_server_row db g s :
  only_row (servers db) g s -> server_row db g = Some s.
Proof.
  unfold server_row. intros (l1 & l2 & -> & H1 & _ & Hs).
  induction H1 as [|x l1 Hx _ IH]; simpl.
  - apply has_serverid_eq in Hs. rewrite Hs. reflexivity.
  - rewrite Hx. exact IH.
Qed.

(** ** Binding the arguments the controller sends *)

Lemma encode_one_role r :
  encode_array as_int (PList [PInt r]) = Ok (mkArray [1] [r]).
Proof. reflexivity. Qed.

Lemma array_contains_one a r :
  array_contains a (mkArray [1] [r]) = existsb (Z.eqb r) (elems a).
Proof. unfold array_contains. simpl. apply andb_true_r. Qed.

Lemma encode_no_item {A} (elem : pyval -> option A) :
  encode_array elem (PList []) = Ok empty_array.
Proof. reflexivity. Qed.

#[local] Arguments encode_array : simpl never.

Ltac run_method :=
  unfold pool_execute, pool_fetch, pool_fetchrow, pool_fetchval, pool_run,
    bind, ret, lift, run; simpl;
  rewrite ?encode_one_role, ?encode_no_item; simpl.

(** ** Unknown guilds *)

(** C7: for a guild without a row, [is_role_assignable] answers false for
    every role and [get_assignable_roles] returns the absent result [None];
    neither raises, and the database is left as it was. *)
Theorem unknown_guild_queries (db : Database) (g r : Z) :
  server_row db g = None ->
  is_role_assignable g r db = (Ok false, db)
  /\ get_assignable_roles g db = (Ok PNone, db).
Proof.
  intros Hnone. apply server_row_absent in Hnone. split.
  - unfold is_role_assignable. run_method.
    rewrite (filter_absent g _ _ Hnone). reflexivity.
  - unfold get_assignable_roles. run_method.
    rewrite (filter_absent_key g _ Hnone). reflexivity.
Qed.

Lemma unknown_guild_queries_witness :
  server_row empty_db 7 = None
  /\ is_role_assignable 7 5 empty_db = (Ok false, empty_db)
  /\ get_assignable_roles 7 empty_db = (Ok PNone, empty_db).
Proof.
  split; [reflexivity | apply (unknown_guild_queries empty_db 7 5); reflexivity].
Defined.

(** C10: for a guild without a row, [add_assignable_role] returns without
    an error and leaves the whole database as it was: the UPDATE matches no
    row. *)
Theorem add_assignable_role_unknown_guild (db : Database) (g r : Z) :
  server_row db g = None ->
  add_assignable_role g r db = (Ok PNone, db).
Proof.
  intros Hnone. apply server_row_absent in Hnone.
  unfold add_assignable_role. run_method.
  rewrite (update_where_absent g _ _ Hnone). simpl.
  rewrite set_servers_same. reflexivity.
Qed.

Lemma add_assignable_role_unknown_guild_witness :
  server_row (mkDatabase [default_row 8 0] [] 3) 7 = None
  /\ add_assignable_role 7 5 (mkDatabase [default_row 8 0] [] 3)
     = (Ok PNone, mkDatabase [default_row 8 0] [] 3).
Proof.
  split; [reflexivity|].
  apply (add_assignable_role_unknown_guild (mkDatabase [default_row 8 0] [] 3) 7 5).
  reflexivity.
Defined.

(** ** [parse_record] *)

(** C9: [parse_record] returns the column values of a row in their order,
    returns [None] for anything that is not a row, and never raises; being a
    function of its argument alone, it has no effect. *)
Theorem parse_record_contract :
  (forall r : Record_, parse_record (ORecord r) = Ok (Some (map snd r)))
  /\ (forall v : pyval, parse_record (OValue v) = Ok None)
  /\ (forall o : pyobj, exists t, parse_record o = Ok t).
Proof.
  split; [|split].
  - intros r. reflexivity.
  - intros v. reflexivity.
  - intros [r|v]; eexists; reflexivity.
Qed.

(** ** The moderation log *)

Section ModerationLog.

Variable Action : Type.
Variable attr_Value : Action -> result pyval.

(** The statement announces three parameters and is handed four values:
    whatever [action_type.Value] yields, the call raises and the database
    stays as it was. *)
Lemma insert_modaction_raises db g m t a :
  insert_modaction Action attr_Value g m t a db
  = (Raise (match attr_Value a with
            | Ok _ => InterfaceError
            | Raise e => e
            end), db).
Proof.
  unfold insert_modaction, lift, bind. destruct (attr_Value a); reflexivity.
Qed.

(** C1 (refuted on the code): [insert_modaction] inserts no row at all.
    For every guild, moderator, target and action the call ends in an
    exception and leaves the [moderation] table, and the rest of the
    database, unchanged. *)
Theorem insert_modaction_inserts_nothing db g m t a :
  exists e, insert_modaction Action attr_Value g m t a db = (Raise e, db).
Proof. eexists. apply insert_modaction_raises. Qed.

(** C2 (refuted on the code): no call of [insert_modaction] succeeds.  A
    first call, a repetition of it and a call with another action all end
    in an exception that reaches the caller, on a database that never
    changes.  With a fourth placeholder the statement would store the row
    once and answer a repetition with [UniqueViolationError], since it has
    no ON CONFLICT clause. *)
Theorem insert_modaction_never_succeeds db g m t a a' :
  (exists e1 e2 e3,
      insert_modaction Action attr_Value g m t a db = (Raise e1, db)
      /\ insert_modaction Action attr_Value g m t a db = (Raise e2, db)
      /\ insert_modaction Action attr_Value g m t a' db = (Raise e3, db))
  /\ (forall v : Z,
        (let* _ := pool_execute (InsertModeration 4)
                     [PInt g; PInt m; PInt t; PInt v] in
         pool_execute (InsertModeration 4)
           [PInt g; PInt m; PInt t; PInt v]) (mkDatabase (servers db) [] 0)
        = (Raise UniqueViolationError,
           mkDatabase (servers db)
             [mkModerationAction g m t v 0] 0)).
Proof.
  split.
  - do 3 eexists. repeat split; apply insert_modaction_raises.
  - intros v. run_method. unfold insert_moderation, same_modkey. simpl.
    rewrite !Z.eqb_refl. reflexivity.
Qed.

End ModerationLog.

(** ** [add_server] *)

Lemma add_server_new db g :
  absent g (servers db) ->
  add_server g db
  = (Ok PNone,
     set_servers db (servers db ++ [default_row g (current_timestamp db)])).
Proof.
  intros Habs. unfold add_server. run_method.
  rewrite (existsb_absent g _ Habs). reflexivity.
Qed.

Lemma add_server_known db g :
  existsb (has_serverid g) (servers db) = true ->
  add_server g db = (Ok PNone, db).
Proof.
  intros Hex. unfold add_server. run_method. rewrite Hex. reflexivity.
Qed.

Lemma count_absent db g :
  absent g (servers db) -> count_servers db g = 0.
Proof.
  intros H. unfold count_servers. rewrite (filter_absent_key g _ H). reflexivity.
Qed.

Lemma count_only_row db g s :
  only_row (servers db) g s -> count_servers db g = 1.
Proof.
  unfold count_servers. intros (l1 & l2 & -> & H1 & H2 & Hs).
  rewrite List.filter_app. simpl.
  rewrite (filter_absent_key g _ H1), (filter_absent_key g _ H2).
  apply has_serverid_eq in Hs. rewrite Hs. reflexivity.
Qed.

Lemma existsb_only_row rows g s :
  only_row rows g s -> existsb (has_serverid g) rows = true.
Proof.
  intros (l1 & l2 & -> & _ & _ & Hs). rewrite existsb_app. simpl.
  apply has_serverid_eq in Hs. rewrite Hs. apply orb_true_r.
Qed.

Lemma primary_key_add_server db g :
  primary_key_ok db -> absent g (servers db) ->
  primary_key_ok
    (set_servers db (servers db ++ [default_row g (current_timestamp db)])).
Proof.
  unfold primary_key_ok. simpl. intros Hnd Habs.
  rewrite map_app. simpl. apply NoDup_app. repeat split.
  - exact Hnd.
  - intros x Hx Hin. apply list_elem_of_singleton in Hin. subst x.
    apply absent_not_in in Habs. apply Habs. apply list_elem_of_In. exact Hx.
  - apply NoDup_singleton.
Qed.

(** C5: on a database that respects the primary key, [add_server g] creates
    the row of [g] with prefix "-" and empty arrays when there is none, and
    changes nothing when there is one; either way it returns without an
    error, leaves exactly one row for [g], and a second call, at whatever
    time, changes nothing and does not raise. *)
Theorem add_server_idempotent (db : Database) (g t : Z) :
  primary_key_ok db ->
  exists db1,
    add_server g db = (Ok PNone, db1)
    /\ primary_key_ok db1
    /\ count_servers db1 g = 1
    /\ (server_row db g = None ->
        db1 = set_servers db
                (servers db ++ [default_row g (current_timestamp db)])
        /\ server_row db1 g = Some (default_row g (current_timestamp db)))
    /\ (forall s, server_row db g = Some s -> db1 = db)
    /\ add_server g (at_time t db1) = (Ok PNone, at_time t db1).
Proof.
  intros Hpk. destruct (server_row db g) as [s|] eqn:Hrow.
  - pose proof (primary_key_only_row db g s Hpk Hrow) as Honly.
    pose proof (existsb_only_row _ _ _ Honly) as Hex.
    exists db. split; [|split; [|split; [|split; [|split]]]].
    + apply add_server_known, Hex.
    + exact Hpk.
    + apply (count_only_row db g s Honly).
    + discriminate.
    + reflexivity.
    + apply add_server_known. exact Hex.
  - apply server_row_absent in Hrow as Habs.
    set (row := default_row g (current_timestamp db)).
    assert (Honly : only_row (servers db ++ [row]) g row).
    { exists (servers db), []. repeat split; [assumption | constructor]. }
    exists (set_servers db (servers db ++ [row])).
    split; [|split; [|split; [|split; [|split]]]].
    + apply add_server_new, Habs.
    + apply primary_key_add_server; assumption.
    + apply (count_only_row (set_servers db (servers db ++ [row])) g row Honly).
    + intros _. split; [reflexivity|].
      apply (only_row_server_row (set_servers db (servers db ++ [row])) g row Honly).
    + intros s Hs. discriminate.
    + apply add_server_known. simpl. apply (existsb_only_row _ _ _ Honly).
Qed.

Lemma add_server_idempotent_witness :
  primary_key_ok empty_db
  /\ exists db1,
       add_server 7 empty_db = (Ok PNone, db1)
       /\ primary_key_ok db1
       /\ count_servers db1 7 = 1
       /\ (server_row empty_db 7 = None ->
           db1 = set_servers empty_db
                   (servers empty_db
                    ++ [default_row 7 (current_timestamp empty_db)])
           /\ server_row db1 7
              = Some (default_row 7 (current_timestamp empty_db)))
       /\ (forall s, server_row empty_db 7 = Some s -> db1 = empty_db)
       /\ add_server 7 (at_time 9 db1) = (Ok PNone, at_time 9 db1).
Proof.
  assert (H : primary_key_ok empty_db) by apply NoDup_nil_2.
  split; [exact H | exact (add_server_idempotent empty_db 7 9 H)].
Defined.

(** ** Prefixes *)

Lemma get_server_prefix_entries db :
  get_server_prefix db = (Ok (prefix_entries (servers db) ∅), db).
Proof.
  unfold get_server_prefix. run_method. f_equal.
  generalize (∅ : gmap Z pyval).
  induction (servers db) as [|s rows IH]; intros d; simpl.
  - reflexivity.
  - apply IH.
Qed.

Lemma prefix_entries_lookup rows g p : forall d : gmap Z pyval,
  d !! g = Some (PStr p) \/ existsb (has_serverid g) rows = true ->
  Forall (fun s => has_serverid g s = true -> prefix s = p) rows ->
  prefix_entries rows d !! g = Some (PStr p).
Proof.
  induction rows as [|s rows IH]; intros d Hsome Hall; simpl in *.
  - destruct Hsome as [H|H]; [exact H | discriminate].
  - inversion Hall as [|? ? Hs Hrows]; subst. apply IH; [|exact Hrows].
    destruct (has_serverid g s) eqn:Hgs.
    + left. apply has_serverid_eq in Hgs as Hid. rewrite Hid, (Hs eq_refl).
      apply lookup_insert_eq.
    + apply has_serverid_neq in Hgs. destruct Hsome as [H|H].
      * left. rewrite lookup_insert_ne by exact Hgs. exact H.
      * right. exact H.
Qed.

Lemma set_prefix_rows g p rows :
  existsb (has_serverid g)
    (map (fun s => if has_serverid g s then set_prefix_column p s else s) rows)
  = existsb (has_serverid g) rows
  /\ Forall (fun s => has_serverid g s = true -> prefix s = p)
       (map (fun s => if has_serverid g s then set_prefix_column p s else s)
          rows).
Proof.
  induction rows as [|s rows [IH1 IH2]]; simpl.
  - split; [reflexivity | constructor].
  - split.
    + rewrite IH1. destruct (has_serverid g s) eqn:Hgs; simpl.
      * unfold has_serverid in *. simpl. rewrite Hgs. reflexivity.
      * rewrite Hgs. reflexivity.
    + constructor; [|exact IH2].
      destruct (has_serverid g s) eqn:Hgs; [reflexivity|].
      intros H. congruence.
Qed.

(** C8: [set_prefix] has three outcomes, told apart by its result.  It
    returns true exactly when the guild has a row and the prefix fits, and
    then the mapping of [get_server_prefix] on the new database sends the
    guild to that prefix; it returns false, changing nothing, for a guild
    without a row; and it raises the storage's error, changing nothing,
    when the guild is known and the prefix is longer than two characters. *)
Theorem set_prefix_round_trip (db : Database) (g : Z) (p : string) :
  match set_prefix g p db with
  | (Ok true, db') =>
      server_row db g <> None /\ String.length p <= 2
      /\ exists d, get_server_prefix db' = (Ok d, db')
                   /\ d !! g = Some (PStr p)
  | (Ok false, db') => server_row db g = None /\ db' = db
  | (Raise e, db') =>
      server_row db g <> None /\ 2 < String.length p /\ db' = db
  end.
Proof.
  unfold set_prefix.
  destruct (existsb (has_serverid g) (servers db)) eqn:Hex; simpl.
  - assert (Hrow : server_row db g <> None).
    { intros Hnone. apply server_row_absent, existsb_absent in Hnone.
      congruence. }
    destruct (2 <? String.length p) eqn:Hlen.
    + apply Nat.ltb_lt in Hlen. auto.
    + apply Nat.ltb_ge in Hlen. split; [exact Hrow|]. split; [exact Hlen|].
      eexists. split; [apply get_server_prefix_entries|]. simpl.
      destruct (set_prefix_rows g p (servers db)) as [H1 H2].
      apply prefix_entries_lookup; [|exact H2].
      right. rewrite H1. exact Hex.
  - split; [|reflexivity]. apply server_row_absent.
    clear -Hex. unfold absent. induction (servers db) as [|s rows IH].
    + constructor.
    + simpl in Hex. apply orb_false_elim in Hex as [H1 H2].
      constructor; auto.
Qed.

(** ** Role arrays as Python sees them *)

Lemma chunks_singletons {A} (inj : A -> pyval) (xs : list A) :
  map (nest inj []) (chunks 1 (length xs) xs) = map inj xs.
Proof.
  induction xs as [|x xs IH]; simpl.
  - reflexivity.
  - rewrite drop_0. f_equal. exact IH.
Qed.

Lemma decode_array1 xs : decode_array PInt (array1 xs) = PList (map PInt xs).
Proof.
  destruct xs as [|x xs]; [reflexivity|].
  unfold decode_array, array1, dims, elems.
  cbn [nest product fold_right]. apply (f_equal PList).
  apply (chunks_singletons PInt (x :: xs)).
Qed.

Lemma decode_array2 xs :
  xs <> [] ->
  decode_array PInt (array2 xs) = PList [PList (map PInt xs)].
Proof.
  destruct xs as [|x xs]; [congruence|]. intros _.
  unfold decode_array, array2, dims, elems.
  cbn [nest product fold_right chunks map].
  rewrite Nat.mul_1_r, firstn_all.
  apply (f_equal (fun v => PList [PList v])).
  apply (chunks_singletons PInt (x :: xs)).
Qed.

Lemma existsb_ints r xs :
  existsb (fun y => py_eqb y (PInt r)) (map PInt xs)
  = existsb (fun y => Z.eqb y r) xs.
Proof. induction xs as [|x xs IH]; simpl; [reflexivity | now rewrite IH]. Qed.

Lemma remove_first_ints r xs :
  remove_first (PInt r) (map PInt xs) = map PInt (remove1 r xs).
Proof.
  induction xs as [|x xs IH]; simpl; [reflexivity|].
  destruct (Z.eqb x r); [reflexivity|]. simpl. now rewrite IH.
Qed.

Lemma existsb_In r xs : existsb (Z.eqb r) xs = true <-> In r xs.
Proof.
  rewrite existsb_exists. split.
  - intros (x & Hx & Heq). apply Z.eqb_eq in Heq. now subst.
  - intros H. exists r. split; [exact H | apply Z.eqb_refl].
Qed.

Lemma existsb_not_In r xs : ~ In r xs -> existsb (Z.eqb r) xs = false.
Proof.
  intros H. destruct (existsb (Z.eqb r) xs) eqn:E; [|reflexivity].
  apply existsb_In in E. contradiction.
Qed.

Lemma list_remove_ints r xs :
  In r xs ->
  list_remove (PList (map PInt xs)) (PInt r)
  = Ok (PList (map PInt (remove1 r xs))).
Proof.
  intros Hin. unfold list_remove. rewrite existsb_ints, remove_first_ints.
  replace (existsb (fun y => Z.eqb y r) xs) with true; [reflexivity|].
  symmetry. apply existsb_exists. exists r. split; [exact Hin | apply Z.eqb_refl].
Qed.

Lemma shape_ints xs : shape (PList (map PInt xs)) = Some [length xs].
Proof.
  destruct xs as [|x xs]; [reflexivity|]. simpl.
  replace (forallb (fun o => bool_decide (o = Some [])) (map shape (map PInt xs)))
    with true; [now rewrite length_map|].
  symmetry. induction xs as [|y xs IH]; [reflexivity | exact IH].
Qed.

Lemma leaves_ints xs : concat (map leaves (map PInt xs)) = map PInt xs.
Proof. induction xs as [|x xs IH]; simpl; [reflexivity | now rewrite IH]. Qed.

Lemma mapM_ints xs : mapM as_int (map PInt xs) = Some xs.
Proof. induction xs as [|x xs IH]; simpl; [reflexivity | now rewrite IH]. Qed.

(** What the UPDATE of [remove_assignable_role] binds for [[role_list]]. *)
Lemma encode_wrapped_list xs :
  encode_array as_int (PList [PList (map PInt xs)]) = Ok (array2 xs).
Proof.
  unfold encode_array.
  assert (Hs : shape (PList [PList (map PInt xs)]) = Some [1; length xs]).
  { change (shape (PList [PList (map PInt xs)]))
      with (match shape (PList (map PInt xs)) with
            | Some s => Some (1 :: s)
            | None => None
            end).
    now rewrite shape_ints. }
  rewrite Hs.
  change (leaves (PList [PList (map PInt xs)]))
    with (concat (map leaves (map PInt xs)) ++ []).
  rewrite app_nil_r, leaves_ints, mapM_ints.
  destruct xs; reflexivity.
Qed.

Lemma array_cat_array1 xs r :
  array_cat (array1 xs) (mkArray [1] [r]) = Ok (array1 (xs ++ [r])).
Proof.
  destruct xs as [|x xs]; [reflexivity|].
  unfold array_cat, array1. simpl. rewrite length_app. simpl. reflexivity.
Qed.

Lemma elems_array1 xs : elems (array1 xs) = xs.
Proof. destruct xs; reflexivity. Qed.

Lemma elems_array2 xs : elems (array2 xs) = xs.
Proof. destruct xs; reflexivity. Qed.

Lemma remove1_app_new r xs : ~ In r xs -> remove1 r (xs ++ [r]) = xs.
Proof.
  induction xs as [|x xs IH]; simpl; intros Hn.
  - now rewrite Z.eqb_refl.
  - destruct (Z.eqb x r) eqn:E.
    + apply Z.eqb_eq in E. tauto.
    + rewrite IH; [reflexivity | tauto].
Qed.

(** ** Statements on the row of one guild *)

Lemma filter_only_row rows g s (P : ServerConfig -> bool) :
  only_row rows g s ->
  List.filter (fun x => has_serverid g x && P x) rows
  = if P s then [s] else [].
Proof.
  intros (l1 & l2 & -> & H1 & H2 & Hs). rewrite List.filter_app. simpl.
  rewrite (filter_absent g P _ H1), (filter_absent g P _ H2).
  apply has_serverid_eq in Hs. rewrite Hs. simpl.
  destruct (P s); reflexivity.
Qed.

Lemma update_only_row rows g s s' f :
  only_row rows g s -> f s = Ok s' -> serverid s' = g ->
  exists rows', update_where (has_serverid g) f rows = Ok rows'
                /\ only_row rows' g s'.
Proof.
  intros (l1 & l2 & -> & H1 & H2 & Hs) Hf Hs'.
  exists (l1 ++ s' :: l2). split.
  - unfold update_where. rewrite traverse_app. simpl.
    fold (update_where (has_serverid g) f l1).
    fold (update_where (has_serverid g) f l2).
    rewrite (update_where_absent g f _ H1), (update_where_absent g f _ H2).
    apply has_serverid_eq in Hs. rewrite Hs, Hf. reflexivity.
  - exists l1, l2. auto.
Qed.

Lemma is_role_assignable_only_row db g r s :
  only_row (servers db) g s ->
  is_role_assignable g r db
  = (Ok (existsb (Z.eqb r) (elems (assignableroles s))), db).
Proof.
  intros Honly. unfold is_role_assignable. run_method.
  rewrite (filter_only_row _ g s
             (fun x => array_contains (assignableroles x) (mkArray [1] [r]))
             Honly).
  rewrite array_contains_one.
  destruct (existsb (Z.eqb r) (elems (assignableroles s))); reflexivity.
Qed.

Lemma add_assignable_role_only_row db g r s a' :
  only_row (servers db) g s ->
  array_cat (assignableroles s) (mkArray [1] [r]) = Ok a' ->
  exists db1, add_assignable_role g r db = (Ok PNone, db1)
              /\ only_row (servers db1) g (set_assignableroles a' s).
Proof.
  intros Honly Hcat.
  destruct (update_only_row (servers db) g s (set_assignableroles a' s)
              (fun x => rbind (array_cat (assignableroles x) (mkArray [1] [r]))
                          (fun a => Ok (set_assignableroles a x))) Honly)
    as (rows' & Hupd & Honly').
  { rewrite Hcat. reflexivity. }
  { destruct Honly as (_ & _ & _ & _ & _ & Hs). exact Hs. }
  exists (set_servers db rows'). split; [|exact Honly'].
  unfold add_assignable_role. run_method. rewrite Hupd. reflexivity.
Qed.

Lemma get_assignable_roles_only_row db g s :
  only_row (servers db) g s ->
  get_assignable_roles g db
  = (Ok (decode_array PInt (assignableroles s)), db).
Proof.
  intros Honly. unfold get_assignable_roles. run_method.
  pose proof (filter_only_row _ g s (fun _ => true) Honly) as Hf.
  rewrite (List.filter_ext _ (has_serverid g)) in Hf
    by (intros x; apply andb_true_r).
  rewrite Hf. reflexivity.
Qed.

(** A role that is in the one-dimensional array of the guild: the list is
    read, loses the first occurrence of the role, and goes back to the row
    wrapped in one more list. *)
Lemma remove_assignable_role_only_row db g r s xs :
  only_row (servers db) g s ->
  assignableroles s = array1 xs -> In r xs ->
  exists db2, remove_assignable_role g r db = (Ok PNone, db2)
              /\ only_row (servers db2) g
                   (set_assignableroles (array2 (remove1 r xs)) s).
Proof.
  intros Honly Harr Hin.
  destruct (update_only_row (servers db) g s
              (set_assignableroles (array2 (remove1 r xs)) s)
              (fun x => Ok (set_assignableroles (array2 (remove1 r xs)) x))
              Honly eq_refl)
    as (rows' & Hupd & Honly').
  { destruct Honly as (_ & _ & _ & _ & _ & Hs). exact Hs. }
  exists (set_servers db rows'). split; [|exact Honly'].
  unfold remove_assignable_role. run_method.
  rewrite (filter_only_row _ g s
             (fun x => array_contains (assignableroles x) (mkArray [1] [r]))
             Honly).
  rewrite array_contains_one, Harr, elems_array1.
  apply existsb_In in Hin as Hex. rewrite Hex. simpl.
  rewrite Harr, decode_array1, (list_remove_ints r xs Hin).
  rewrite encode_wrapped_list. simpl. rewrite Hupd. reflexivity.
Qed.

(** No row of the guild holds the role: the query returns nothing, and the
    method goes on to call [remove] on [None]. *)
Lemma remove_assignable_role_no_match db g r :
  List.filter (fun x => has_serverid g x
                        && array_contains (assignableroles x) (mkArray [1] [r]))
    (servers db) = [] ->
  remove_assignable_role g r db = (Raise AttributeError, db).
Proof.
  intros Hnone. unfold remove_assignable_role. run_method.
  rewrite Hnone. reflexivity.
Qed.

(** ** Removing roles *)

(** C3 (refuted on the code): for a guild whose one-dimensional role array
    holds the role next to others, [remove_assignable_role] does not write
    the remaining sequence back: the row receives the two-dimensional array
    with that sequence as its single item, and [get_assignable_roles] then
    returns a list holding that one list. *)
Theorem remove_assignable_role_writes_nested_list
    (db : Database) (g r : Z) (s : ServerConfig) (xs : list Z) :
  primary_key_ok db -> server_row db g = Some s ->
  assignableroles s = array1 xs -> In r xs -> remove1 r xs <> [] ->
  exists db',
    remove_assignable_role g r db = (Ok PNone, db')
    /\ (assignableroles <$> server_row db' g)
       = Some (mkArray [1; length (remove1 r xs)] (remove1 r xs))
    /\ get_assignable_roles g db'
       = (Ok (PList [PList (map PInt (remove1 r xs))]), db')
    /\ PList [PList (map PInt (remove1 r xs))]
       <> PList (map PInt (remove1 r xs)).
Proof.
  intros Hpk Hrow Harr Hin Hrest.
  pose proof (primary_key_only_row db g s Hpk Hrow) as Honly.
  destruct (remove_assignable_role_only_row db g r s xs Honly Harr Hin)
    as (db' & Hrm & Honly').
  exists db'. split; [exact Hrm|]. split; [|split].
  - rewrite (only_row_server_row db' g _ Honly'). simpl.
    destruct (remove1 r xs); [congruence | reflexivity].
  - rewrite (get_assignable_roles_only_row db' g _ Honly'). simpl.
    rewrite (decode_array2 _ Hrest). reflexivity.
  - destruct (remove1 r xs) as [|y ys]; [congruence|]. simpl. congruence.
Qed.

Lemma remove_assignable_role_writes_nested_list_witness :
  exists db',
    remove_assignable_role 7 2
      (mkDatabase [roles_row 7 (array1 [1; 2; 3]%Z)] [] 0) = (Ok PNone, db')
    /\ (assignableroles <$> server_row db' 7)
       = Some (mkArray [1; 2] [1; 3]%Z)
    /\ get_assignable_roles 7 db'
       = (Ok (PList [PList [PInt 1; PInt 3]]), db')
    /\ PList [PList [PInt 1; PInt 3]] <> PList [PInt 1; PInt 3].
Proof.
  apply (remove_assignable_role_writes_nested_list
           (mkDatabase [roles_row 7 (array1 [1; 2; 3]%Z)] [] 0) 7 2
           (roles_row 7 (array1 [1; 2; 3]%Z)) [1; 2; 3]%Z).
  - apply NoDup_singleton.
  - reflexivity.
  - reflexivity.
  - simpl. tauto.
  - simpl. discriminate.
Defined.

(** C4 (refuted on the code): when the guild has no row, or its row does
    not hold the role, [remove_assignable_role] leaves the database as it
    was, but what it raises is the [AttributeError] of calling [remove] on
    [None], not an error that names the missing role. *)
Theorem remove_assignable_role_absent_role (db : Database) (g r : Z) :
  server_row db g = None
  \/ (exists s, primary_key_ok db /\ server_row db g = Some s
                /\ ~ In r (elems (assignableroles s))) ->
  remove_assignable_role g r db = (Raise AttributeError, db).
Proof.
  intros [Hnone | (s & Hpk & Hrow & Hnin)];
    apply remove_assignable_role_no_match.
  - apply filter_absent, server_row_absent, Hnone.
  - rewrite (filter_only_row _ g s _ (primary_key_only_row db g s Hpk Hrow)).
    rewrite array_contains_one, (existsb_not_In r _ Hnin). reflexivity.
Qed.

Lemma remove_assignable_role_absent_role_witness :
  remove_assignable_role 7 99 empty_db = (Raise AttributeError, empty_db)
  /\ remove_assignable_role 7 99
       (mkDatabase [roles_row 7 (array1 [1; 2; 3]%Z)] [] 0)
     = (Raise AttributeError,
        mkDatabase [roles_row 7 (array1 [1; 2; 3]%Z)] [] 0).
Proof.
  split.
  - apply (remove_assignable_role_absent_role empty_db 7 99).
    left. reflexivity.
  - apply (remove_assignable_role_absent_role
             (mkDatabase [roles_row 7 (array1 [1; 2; 3]%Z)] [] 0) 7 99).
    right. exists (roles_row 7 (array1 [1; 2; 3]%Z)).
    split; [apply NoDup_singleton|]. split; [reflexivity|].
    simpl. lia.
Defined.

(** ** Adding, then removing *)

(** C6, the claim as it stands, fails: a role that is already assignable is
    appended once more, the removal takes out one occurrence only, and the
    role is still reported as assignable. *)
Lemma duplicate_role_survives_removal :
  (let* _ := add_assignable_role 7 5 in
   let* _ := remove_assignable_role 7 5 in
   is_role_assignable 7 5) (mkDatabase [roles_row 7 (array1 [5%Z])] [] 0)
  = (Ok true, mkDatabase [roles_row 7 (mkArray [1; 1] [5%Z])] [] 0).
Proof. reflexivity. Qed.

(** C6, amended: for a guild whose row holds a one-dimensional role array
    without the role, [add_assignable_role] makes [is_role_assignable]
    answer true, and a following [remove_assignable_role] makes it answer
    false; none of the four calls raises. *)
Theorem add_then_remove_assignable_role
    (db : Database) (g r : Z) (s : ServerConfig) (xs : list Z) :
  primary_key_ok db -> server_row db g = Some s ->
  assignableroles s = array1 xs -> ~ In r xs ->
  exists db1 db2,
    add_assignable_role g r db = (Ok PNone, db1)
    /\ is_role_assignable g r db1 = (Ok true, db1)
    /\ remove_assignable_role g r db1 = (Ok PNone, db2)
    /\ is_role_assignable g r db2 = (Ok false, db2).
Proof.
  intros Hpk Hrow Harr Hnin.
  pose proof (primary_key_only_row db g s Hpk Hrow) as Honly.
  destruct (add_assignable_role_only_row db g r s (array1 (xs ++ [r])) Honly)
    as (db1 & Hadd & Honly1).
  { rewrite Harr. apply array_cat_array1. }
  assert (Hin : In r (xs ++ [r])) by (apply in_or_app; right; simpl; tauto).
  destruct (remove_assignable_role_only_row db1 g r _ (xs ++ [r]) Honly1
              eq_refl Hin) as (db2 & Hrm & Honly2).
  exists db1, db2. split; [exact Hadd|]. split; [|split; [exact Hrm|]].
  - rewrite (is_role_assignable_only_row db1 g r _ Honly1). simpl.
    rewrite elems_array1. apply existsb_In in Hin. rewrite Hin. reflexivity.
  - rewrite (is_role_assignable_only_row db2 g r _ Honly2). simpl.
    rewrite elems_array2, (remove1_app_new r xs Hnin).
    rewrite (existsb_not_In r xs Hnin). reflexivity.
Qed.

Lemma add_then_remove_assignable_role_witness :
  exists db1 db2,
    add_assignable_role 7 5
      (mkDatabase [roles_row 7 (array1 [1; 2]%Z)] [] 0) = (Ok PNone, db1)
    /\ is_role_assignable 7 5 db1 = (Ok true, db1)
    /\ remove_assignable_role 7 5 db1 = (Ok PNone, db2)
    /\ is_role_assignable 7 5 db2 = (Ok false, db2).
Proof.
  apply (add_then_remove_assignable_role
           (mkDatabase [roles_row 7 (array1 [1; 2]%Z)] [] 0) 7 5
           (roles_row 7 (array1 [1; 2]%Z)) [1; 2]%Z).
  - apply NoDup_singleton.
  - reflexivity.
  - reflexivity.
  - simpl. lia.
Defined.

(** * Further properties of the controller *)

(** ** The queries *)

Lemma truthy_first_row (P : ServerConfig -> bool) rows :
  truthy (head (map server_record (List.filter P rows))) = existsb P rows.
Proof.
  induction rows as [|s rows IH]; simpl; [reflexivity|].
  destruct (P s); [reflexivity | exact IH].
Qed.

(** [is_role_assignable] answers whether some row of the guild holds the
    role in its array, whatever the shape of the array; it never raises and
    leaves the database as it was. *)
Theorem is_role_assignable_membership (db : Database) (g r : Z) :
  is_role_assignable g r db
  = (Ok (existsb (fun s => has_serverid g s
                           && existsb (Z.eqb r) (elems (assignableroles s)))
           (servers db)), db).
Proof.
  unfold is_role_assignable. run_method.
  rewrite truthy_first_row. do 2 f_equal.
  induction (servers db) as [|s rows IH]; simpl; [reflexivity|].
  rewrite array_contains_one, IH. reflexivity.
Qed.

(** [get_assignable_roles] and [get_server_prefix] never raise and never
    change the database, whatever it holds; the former returns the role
    array of the guild's row as the driver decodes it, and [None] when the
    guild has no row. *)
Theorem queries_read_only (db : Database) (g : Z) :
  get_assignable_roles g db
  = (Ok (match server_row db g with
         | Some s => decode_array PInt (assignableroles s)
         | None => PNone
         end), db)
  /\ (exists d, get_server_prefix db = (Ok d, db)).
Proof.
  split.
  - unfold get_assignable_roles, server_row. run_method. do 2 f_equal.
    induction (servers db) as [|s rows IH]; simpl; [reflexivity|].
    destruct (has_serverid g s); [reflexivity | exact IH].
  - eexists. apply get_server_prefix_entries.
Qed.

Lemma prefix_entries_absent g rows : forall d : gmap Z pyval,
  absent g rows -> prefix_entries rows d !! g = d !! g.
Proof.
  induction rows as [|s rows IH]; intros d Habs; simpl; [reflexivity|].
  inversion Habs as [|? ? Hs Hrows]; subst.
  rewrite (IH _ Hrows). apply lookup_insert_ne.
  apply has_serverid_neq. exact Hs.
Qed.

Lemma prefix_entries_row db g :
  primary_key_ok db ->
  prefix_entries (servers db) ∅ !! g
  = (fun s => PStr (prefix s)) <$> server_row db g.
Proof.
  intros Hpk. destruct (server_row db g) as [s|] eqn:Hrow; simpl.
  - destruct (primary_key_only_row db g s Hpk Hrow)
      as (l1 & l2 & Hrows & H1 & H2 & Hs).
    apply prefix_entries_lookup.
    + right. rewrite Hrows, existsb_app. simpl.
      apply has_serverid_eq in Hs. rewrite Hs. apply orb_true_r.
    + rewrite Hrows. apply Forall_app. split; [|constructor].
      * eapply Forall_impl; [exact H1|]. simpl. intros x Hx Hy. congruence.
      * reflexivity.
      * eapply Forall_impl; [exact H2|]. simpl. intros x Hx Hy. congruence.
  - apply server_row_absent in Hrow.
    rewrite (prefix_entries_absent g _ _ Hrow). apply lookup_empty.
Qed.

(** Under the primary key, the mapping of [get_server_prefix] sends a guild
    to the prefix of its row, and has no entry for a guild without a row;
    on an empty table it is the empty mapping. *)
Theorem get_server_prefix_lookup (db : Database) (g : Z) :
  primary_key_ok db ->
  exists d, get_server_prefix db = (Ok d, db)
            /\ d !! g = (fun s => PStr (prefix s)) <$> server_row db g
            /\ (servers db = [] -> d = ∅).
Proof.
  intros Hpk. exists (prefix_entries (servers db) ∅).
  split; [apply get_server_prefix_entries|]. split.
  - apply prefix_entries_row, Hpk.
  - intros ->. reflexivity.
Qed.

Lemma get_server_prefix_lookup_witness :
  exists d,
    get_server_prefix (mkDatabase [default_row 7 0; default_row 8 0] [] 0)
    = (Ok d, mkDatabase [default_row 7 0; default_row 8 0] [] 0)
    /\ d !! 8%Z
       = (fun s => PStr (prefix s))
           <$> server_row (mkDatabase [default_row 7 0; default_row 8 0] [] 0) 8
    /\ (servers (mkDatabase [default_row 7 0; default_row 8 0] [] 0) = [] ->
        d = ∅).
Proof.
  apply (get_server_prefix_lookup
           (mkDatabase [default_row 7 0; default_row 8 0] [] 0) 8).
  unfold primary_key_ok. simpl. apply NoDup_cons. split.
  - rewrite list_elem_of_singleton. discriminate.
  - apply NoDup_singleton.
Defined.

(** ** What the updates of the role array leave alone *)

Lemma update_where_keys cond f rows : forall rows',
  (forall s s', f s = Ok s' -> serverid s' = serverid s) ->
  update_where cond f rows = Ok rows' ->
  map serverid rows' = map serverid rows.
Proof.
  unfold update_where. induction rows as [|s rows IH]; simpl; intros rows' Hf H.
  - injection H as <-. reflexivity.
  - destruct (cond s).
    + destruct (f s) as [s'|e] eqn:Hs; simpl in H; [|discriminate].
      destruct (traverse _ rows) as [ys|e]; simpl in H; [|discriminate].
      injection H as <-. simpl. rewrite (IH ys Hf eq_refl), (Hf s s' Hs).
      reflexivity.
    + simpl in H. destruct (traverse _ rows) as [ys|e]; simpl in H;
        [|discriminate].
      injection H as <-. simpl. rewrite (IH ys Hf eq_refl). reflexivity.
Qed.

Lemma update_where_other g g' f rows : forall rows',
  g' <> g ->
  (forall s s', f s = Ok s' -> serverid s' = serverid s) ->
  update_where (has_serverid g) f rows = Ok rows' ->
  find (has_serverid g') rows' = find (has_serverid g') rows.
Proof.
  unfold update_where. induction rows as [|s rows IH]; simpl;
    intros rows' Hne Hf H.
  - injection H as <-. reflexivity.
  - destruct (has_serverid g s) eqn:Hgs.
    + destruct (f s) as [s'|e] eqn:Hs; simpl in H; [|discriminate].
      destruct (traverse _ rows) as [ys|e]; simpl in H; [|discriminate].
      injection H as <-. simpl. apply has_serverid_eq in Hgs.
      assert (H1 : has_serverid g' s' = false).
      { apply has_serverid_neq. rewrite (Hf s s' Hs). congruence. }
      assert (H2 : has_serverid g' s = false).
      { apply has_serverid_neq. congruence. }
      rewrite H1, H2. apply IH; auto.
    + simpl in H. destruct (traverse _ rows) as [ys|e]; simpl in H;
        [|discriminate].
      injection H as <-. simpl. rewrite (IH ys Hne Hf eq_refl). reflexivity.
Qed.

Lemma add_assignable_role_run db g r :
  add_assignable_role g r db
  = match update_where (has_serverid g) (append_role r) (servers db) with
    | Ok rows => (Ok PNone, set_servers db rows)
    | Raise e => (Raise e, db)
    end.
Proof.
  unfold add_assignable_role. run_method.
  fold (append_role r).
  destruct (update_where (has_serverid g) (append_role r) (servers db));
    reflexivity.
Qed.

Lemma append_role_key r s s' : append_role r s = Ok s' -> serverid s' = serverid s.
Proof.
  unfold append_role. destruct (array_cat _ _); simpl; [|discriminate].
  intros H. injection H as <-. reflexivity.
Qed.

(** Where [remove_assignable_role] can leave the database: as it was, or
    with the rows of the guild given one new array. *)
Lemma remove_assignable_role_cases db g r :
  snd (remove_assignable_role g r db) = db
  \/ exists a rows',
       update_where (has_serverid g)
         (fun s => Ok (set_assignableroles a s)) (servers db) = Ok rows'
       /\ remove_assignable_role g r db = (Ok PNone, set_servers db rows').
Proof.
  unfold remove_assignable_role. run_method.
  destruct (List.filter _ (servers db)) as [|s0 rest]; simpl; [left; reflexivity|].
  destruct (list_remove (decode_array PInt (assignableroles s0)) (PInt r))
    as [role_list|e]; simpl; [|left; reflexivity].
  destruct (encode_array as_int (PList [role_list])) as [a|e]; simpl;
    [|left; reflexivity].
  destruct (update_where (has_serverid g)
              (fun s => Ok (set_assignableroles a s)) (servers db))
    as [rows'|e] eqn:Hupd; simpl; [|left; reflexivity].
  right. exists a, rows'. split; [exact Hupd | reflexivity].
Qed.

Lemma existsb_false_absent g rows :
  existsb (has_serverid g) rows = false -> absent g rows.
Proof.
  unfold absent. induction rows as [|s rows IH]; simpl; intros H.
  - constructor.
  - apply orb_false_elim in H as [H1 H2]. constructor; auto.
Qed.

Lemma add_server_cases db g :
  add_server g db = (Ok PNone, db)
  \/ (absent g (servers db)
      /\ add_server g db
         = (Ok PNone,
            set_servers db
              (servers db ++ [default_row g (current_timestamp db)]))).
Proof.
  destruct (existsb (has_serverid g) (servers db)) eqn:Hex.
  - left. apply add_server_known, Hex.
  - right. apply existsb_false_absent in Hex.
    split; [exact Hex | apply add_server_new, Hex].
Qed.

Lemma find_last_row {A} (f : A -> bool) (l : list A) (x : A) :
  find f (l ++ [x])
  = match find f l with
    | Some y => Some y
    | None => if f x then Some x else None
    end.
Proof.
  induction l as [|y l IH]; simpl; [reflexivity|].
  destruct (f y); [reflexivity | exact IH].
Qed.

Lemma same_elsewhere_refl g db : same_elsewhere g db db.
Proof. repeat split. Qed.

(** [add_server], [add_assignable_role] and [remove_assignable_role] for a
    guild never touch the row of another guild, the moderation log or the
    clock, whether they return or raise. *)
Theorem updates_touch_one_guild (db : Database) (g r : Z) :
  same_elsewhere g db (snd (add_server g db))
  /\ same_elsewhere g db (snd (add_assignable_role g r db))
  /\ same_elsewhere g db (snd (remove_assignable_role g r db)).
Proof.
  split; [|split].
  - destruct (add_server_cases db g) as [-> | [Habs ->]];
      [apply same_elsewhere_refl|].
    repeat split. intros g' Hne. unfold server_row. simpl.
    rewrite find_last_row.
    destruct (find (has_serverid g') (servers db)); [reflexivity|].
    replace (has_serverid g' (default_row g (current_timestamp db)))
      with false; [reflexivity|].
    symmetry. apply has_serverid_neq. simpl. congruence.
  - rewrite add_assignable_role_run.
    destruct (update_where (has_serverid g) (append_role r) (servers db))
      as [rows|e] eqn:Hupd; [|apply same_elsewhere_refl].
    repeat split. intros g' Hne. unfold server_row. simpl.
    apply (update_where_other g g' (append_role r) (servers db) rows Hne);
      [apply append_role_key | exact Hupd].
  - destruct (remove_assignable_role_cases db g r)
      as [-> | (a & rows & Hupd & ->)]; [apply same_elsewhere_refl|].
    repeat split. intros g' Hne. unfold server_row. simpl.
    apply (update_where_other g g'
             (fun s => Ok (set_assignableroles a s)) (servers db) rows Hne);
      [|exact Hupd].
    intros s s' H. injection H as <-. reflexivity.
Qed.

(** The primary key of [servers] survives every method that writes to the
    table, and the two methods on roles neither create nor delete a row. *)
Theorem primary_key_preserved (db : Database) (g r : Z) :
  primary_key_ok db ->
  primary_key_ok (snd (add_server g db))
  /\ primary_key_ok (snd (add_assignable_role g r db))
  /\ primary_key_ok (snd (remove_assignable_role g r db))
  /\ map serverid (servers (snd (add_assignable_role g r db)))
     = map serverid (servers db)
  /\ map serverid (servers (snd (remove_assignable_role g r db)))
     = map serverid (servers db).
Proof.
  intros Hpk.
  assert (Hadd : map serverid (servers (snd (add_assignable_role g r db)))
                 = map serverid (servers db)).
  { rewrite add_assignable_role_run.
    destruct (update_where (has_serverid g) (append_role r) (servers db))
      as [rows|e] eqn:Hupd; [|reflexivity].
    simpl. apply (update_where_keys _ _ _ _ (append_role_key r) Hupd). }
  assert (Hrm : map serverid (servers (snd (remove_assignable_role g r db)))
                = map serverid (servers db)).
  { destruct (remove_assignable_role_cases db g r)
      as [-> | (a & rows & Hupd & ->)]; [reflexivity|].
    simpl.
    apply (update_where_keys (has_serverid g)
             (fun s => Ok (set_assignableroles a s)) (servers db) rows);
      [|exact Hupd].
    intros s s' H. injection H as <-. reflexivity. }
  split; [|split; [|split; [|split]]].
  - destruct (add_server_cases db g) as [-> | [Habs ->]]; [exact Hpk|].
    apply primary_key_add_server; assumption.
  - unfold primary_key_ok. rewrite Hadd. exact Hpk.
  - unfold primary_key_ok. rewrite Hrm. exact Hpk.
  - exact Hadd.
  - exact Hrm.
Qed.

Lemma primary_key_preserved_witness :
  primary_key_ok (snd (add_server 7 empty_db))
  /\ primary_key_ok (snd (add_assignable_role 7 5 empty_db))
  /\ primary_key_ok (snd (remove_assignable_role 7 5 empty_db))
  /\ map serverid (servers (snd (add_assignable_role 7 5 empty_db)))
     = map serverid (servers empty_db)
  /\ map serverid (servers (snd (remove_assignable_role 7 5 empty_db)))
     = map serverid (servers empty_db).
Proof.
  apply (primary_key_preserved empty_db 7 5). apply NoDup_nil_2.
Defined.

(** ** Sequences of role updates *)

Lemma update_where_split g f l1 s l2 :
  absent g l1 -> absent g l2 -> serverid s = g ->
  update_where (has_serverid g) f (l1 ++ s :: l2)
  = rbind (f s) (fun s' => Ok (l1 ++ s' :: l2)).
Proof.
  intros H1 H2 Hs. unfold update_where. rewrite traverse_app. simpl.
  fold (update_where (has_serverid g) f l1).
  fold (update_where (has_serverid g) f l2).
  rewrite (update_where_absent g f _ H1), (update_where_absent g f _ H2).
  apply has_serverid_eq in Hs. rewrite Hs. simpl.
  destruct (f s); reflexivity.
Qed.

Lemma only_row_split l1 s l2 g :
  absent g l1 -> absent g l2 -> serverid s = g -> only_row (l1 ++ s :: l2) g s.
Proof. intros H1 H2 Hs. exists l1, l2. auto. Qed.

Lemma add_assignable_role_split db g r s l1 l2 :
  servers db = l1 ++ s :: l2 ->
  absent g l1 -> absent g l2 -> serverid s = g ->
  add_assignable_role g r db
  = match append_role r s with
    | Ok s' => (Ok PNone, set_servers db (l1 ++ s' :: l2))
    | Raise e => (Raise e, db)
    end.
Proof.
  intros Hrows H1 H2 Hs. rewrite add_assignable_role_run, Hrows.
  rewrite (update_where_split g _ l1 s l2 H1 H2 Hs).
  destruct (append_role r s); reflexivity.
Qed.

Lemma remove_assignable_role_split db g r s xs l1 l2 :
  servers db = l1 ++ s :: l2 ->
  absent g l1 -> absent g l2 -> serverid s = g ->
  assignableroles s = array1 xs -> In r xs ->
  remove_assignable_role g r db
  = (Ok PNone,
     set_servers db
       (l1 ++ set_assignableroles (array2 (remove1 r xs)) s :: l2)).
Proof.
  intros Hrows H1 H2 Hs Harr Hin.
  pose proof (only_row_split l1 s l2 g H1 H2 Hs) as Honly.
  rewrite <- Hrows in Honly.
  unfold remove_assignable_role. run_method.
  rewrite (filter_only_row _ g s
             (fun x => array_contains (assignableroles x) (mkArray [1] [r]))
             Honly).
  rewrite array_contains_one, Harr, elems_array1.
  apply existsb_In in Hin as Hex. rewrite Hex. simpl.
  rewrite Harr, decode_array1, (list_remove_ints r xs Hin).
  rewrite encode_wrapped_list. simpl.
  rewrite Hrows, (update_where_split g _ l1 s l2 H1 H2 Hs). reflexivity.
Qed.

(** A row whose array is the nested one left by an earlier removal: the
    list read back holds one list, which is no role. *)
Lemma remove_assignable_role_nested db g r s ys :
  only_row (servers db) g s ->
  assignableroles s = array2 ys -> In r ys ->
  remove_assignable_role g r db = (Raise ValueError, db).
Proof.
  intros Honly Harr Hin.
  assert (Hne : ys <> []) by (intros ->; destruct Hin).
  unfold remove_assignable_role. run_method.
  rewrite (filter_only_row _ g s
             (fun x => array_contains (assignableroles x) (mkArray [1] [r]))
             Honly).
  rewrite array_contains_one, Harr, elems_array2.
  apply existsb_In in Hin as Hex. rewrite Hex. simpl.
  rewrite Harr, (decode_array2 ys Hne). reflexivity.
Qed.

Lemma append_role_nested r s ys :
  assignableroles s = array2 ys -> 2 <= length ys ->
  append_role r s = Raise ArraySubscriptError.
Proof.
  intros Harr Hlen. unfold append_role. rewrite Harr.
  destruct ys as [|y1 [|y2 ys]]; simpl in Hlen; try lia. reflexivity.
Qed.

Lemma existsb_remove1_other r r' xs :
  r' <> r -> existsb (Z.eqb r') (remove1 r xs) = existsb (Z.eqb r') xs.
Proof.
  intros Hne. induction xs as [|x xs IH]; simpl; [reflexivity|].
  destruct (Z.eqb x r) eqn:E.
  - apply Z.eqb_eq in E. subst x.
    replace (Z.eqb r' r) with false; [reflexivity|].
    symmetry. apply Z.eqb_neq. exact Hne.
  - simpl. rewrite IH. reflexivity.
Qed.

(** [add_assignable_role] appends without looking for duplicates: on a
    guild whose row holds the one-dimensional array of [xs], it returns
    normally and [get_assignable_roles] then returns [xs] followed by the
    role, also when [xs] holds the role already. *)
Theorem add_assignable_role_appends
    (db : Database) (g r : Z) (s : ServerConfig) (xs : list Z) :
  primary_key_ok db -> server_row db g = Some s ->
  assignableroles s = array1 xs ->
  exists db1,
    add_assignable_role g r db = (Ok PNone, db1)
    /\ get_assignable_roles g db1 = (Ok (PList (map PInt (xs ++ [r]))), db1).
Proof.
  intros Hpk Hrow Harr.
  pose proof (primary_key_only_row db g s Hpk Hrow) as Honly.
  destruct (add_assignable_role_only_row db g r s (array1 (xs ++ [r])) Honly)
    as (db1 & Hadd & Honly1).
  { rewrite Harr. apply array_cat_array1. }
  exists db1. split; [exact Hadd|].
  rewrite (get_assignable_roles_only_row db1 g _ Honly1). simpl.
  rewrite decode_array1. reflexivity.
Qed.

Lemma add_assignable_role_appends_witness :
  exists db1,
    add_assignable_role 7 2
      (mkDatabase [roles_row 7 (array1 [1; 2]%Z)] [] 0) = (Ok PNone, db1)
    /\ get_assignable_roles 7 db1
       = (Ok (PList (map PInt ([1; 2] ++ [2])%Z)), db1).
Proof.
  apply (add_assignable_role_appends
           (mkDatabase [roles_row 7 (array1 [1; 2]%Z)] [] 0) 7 2
           (roles_row 7 (array1 [1; 2]%Z)) [1; 2]%Z).
  - apply NoDup_singleton.
  - reflexivity.
  - reflexivity.
Defined.

(** On a guild without assignable roles, adding a role and removing it
    again gives back the very database the two calls started from. *)
Theorem add_remove_restores_database
    (db : Database) (g r : Z) (s : ServerConfig) :
  primary_key_ok db -> server_row db g = Some s ->
  assignableroles s = empty_array ->
  (let* _ := add_assignable_role g r in remove_assignable_role g r) db
  = (Ok PNone, db).
Proof.
  intros Hpk Hrow Harr.
  destruct (primary_key_only_row db g s Hpk Hrow)
    as (l1 & l2 & Hrows & H1 & H2 & Hs).
  unfold bind.
  rewrite (add_assignable_role_split db g r s l1 l2 Hrows H1 H2 Hs).
  unfold append_role. rewrite Harr. simpl.
  rewrite (remove_assignable_role_split
             (set_servers db
                (l1 ++ set_assignableroles (mkArray [1] [r]) s :: l2))
             g r (set_assignableroles (mkArray [1] [r]) s) [r] l1 l2
             eq_refl H1 H2 Hs eq_refl (or_introl eq_refl)).
  simpl. rewrite Z.eqb_refl. f_equal.
  destruct db as [rows mods clock]. simpl in *. subst rows.
  unfold set_servers. simpl. do 3 f_equal.
  destruct s; simpl in *. subst. reflexivity.
Qed.

Lemma add_remove_restores_database_witness :
  (let* _ := add_assignable_role 7 5 in remove_assignable_role 7 5)
    (mkDatabase [default_row 7 0] [] 3)
  = (Ok PNone, mkDatabase [default_row 7 0] [] 3).
Proof.
  apply (add_remove_restores_database
           (mkDatabase [default_row 7 0] [] 3) 7 5 (default_row 7 0)).
  - apply NoDup_singleton.
  - reflexivity.
  - reflexivity.
Defined.

(** A removal takes out one occurrence of the role and no other role: after
    it the role is assignable exactly when it occurred more than once, and
    every other role is as assignable as before. *)
Theorem removal_takes_one_occurrence
    (db : Database) (g r r' : Z) (s : ServerConfig) (xs : list Z) :
  primary_key_ok db -> server_row db g = Some s ->
  assignableroles s = array1 xs -> In r xs -> r' <> r ->
  exists db1,
    remove_assignable_role g r db = (Ok PNone, db1)
    /\ is_role_assignable g r db1
       = (Ok (existsb (Z.eqb r) (remove1 r xs)), db1)
    /\ fst (is_role_assignable g r' db1) = fst (is_role_assignable g r' db).
Proof.
  intros Hpk Hrow Harr Hin Hne.
  pose proof (primary_key_only_row db g s Hpk Hrow) as Honly.
  destruct (remove_assignable_role_only_row db g r s xs Honly Harr Hin)
    as (db1 & Hrm & Honly1).
  exists db1. split; [exact Hrm|]. split.
  - rewrite (is_role_assignable_only_row db1 g r _ Honly1). simpl.
    rewrite elems_array2. reflexivity.
  - rewrite (is_role_assignable_only_row db1 g r' _ Honly1),
      (is_role_assignable_only_row db g r' s Honly). simpl.
    rewrite elems_array2, Harr, elems_array1.
    rewrite (existsb_remove1_other r r' xs Hne). reflexivity.
Qed.

Lemma removal_takes_one_occurrence_witness :
  exists db1,
    remove_assignable_role 7 2
      (mkDatabase [roles_row 7 (array1 [1; 2; 3; 2]%Z)] [] 0) = (Ok PNone, db1)
    /\ is_role_assignable 7 2 db1
       = (Ok (existsb (Z.eqb 2) (remove1 2 [1; 2; 3; 2]%Z)), db1)
    /\ fst (is_role_assignable 7 3 db1)
       = fst (is_role_assignable 7 3
                (mkDatabase [roles_row 7 (array1 [1; 2; 3; 2]%Z)] [] 0)).
Proof.
  apply (removal_takes_one_occurrence
           (mkDatabase [roles_row 7 (array1 [1; 2; 3; 2]%Z)] [] 0) 7 2 3
           (roles_row 7 (array1 [1; 2; 3; 2]%Z)) [1; 2; 3; 2]%Z).
  - apply NoDup_singleton.
  - reflexivity.
  - reflexivity.
  - simpl. lia.
  - lia.
Defined.

(** After a removal that leaves roles behind, no role of the guild can be
    removed any more: the next removal of a remaining role raises
    [ValueError] and changes nothing. *)
Theorem second_removal_raises
    (db : Database) (g r r' : Z) (s : ServerConfig) (xs : list Z) :
  primary_key_ok db -> server_row db g = Some s ->
  assignableroles s = array1 xs -> In r xs -> In r' (remove1 r xs) ->
  exists db1,
    remove_assignable_role g r db = (Ok PNone, db1)
    /\ remove_assignable_role g r' db1 = (Raise ValueError, db1).
Proof.
  intros Hpk Hrow Harr Hin Hin'.
  pose proof (primary_key_only_row db g s Hpk Hrow) as Honly.
  destruct (remove_assignable_role_only_row db g r s xs Honly Harr Hin)
    as (db1 & Hrm & Honly1).
  exists db1. split; [exact Hrm|].
  apply (remove_assignable_role_nested db1 g r' _ (remove1 r xs) Honly1);
    [reflexivity | exact Hin'].
Qed.

Lemma second_removal_raises_witness :
  exists db1,
    remove_assignable_role 7 2
      (mkDatabase [roles_row 7 (array1 [1; 2; 3]%Z)] [] 0) = (Ok PNone, db1)
    /\ remove_assignable_role 7 3 db1 = (Raise ValueError, db1).
Proof.
  apply (second_removal_raises
           (mkDatabase [roles_row 7 (array1 [1; 2; 3]%Z)] [] 0) 7 2 3
           (roles_row 7 (array1 [1; 2; 3]%Z)) [1; 2; 3]%Z).
  - apply NoDup_singleton.
  - reflexivity.
  - reflexivity.
  - simpl. lia.
  - simpl. lia.
Defined.

(** After a removal that leaves two roles or more, no role can be added to
    the guild either: [add_assignable_role] raises the server's
    [ArraySubscriptError] and changes nothing. *)
Theorem add_after_removal_raises
    (db : Database) (g r r' : Z) (s : ServerConfig) (xs : list Z) :
  primary_key_ok db -> server_row db g = Some s ->
  assignableroles s = array1 xs -> In r xs -> 2 <= length (remove1 r xs) ->
  exists db1,
    remove_assignable_role g r db = (Ok PNone, db1)
    /\ add_assignable_role g r' db1 = (Raise ArraySubscriptError, db1).
Proof.
  intros Hpk Hrow Harr Hin Hlen.
  destruct (primary_key_only_row db g s Hpk Hrow)
    as (l1 & l2 & Hrows & H1 & H2 & Hs).
  eexists. split.
  - apply (remove_assignable_role_split db g r s xs l1 l2); assumption.
  - rewrite (add_assignable_role_split
               (set_servers db
                  (l1 ++ set_assignableroles (array2 (remove1 r xs)) s :: l2))
               g r' (set_assignableroles (array2 (remove1 r xs)) s) l1 l2
               eq_refl H1 H2 Hs).
    rewrite (append_role_nested r'
               (set_assignableroles (array2 (remove1 r xs)) s)
               (remove1 r xs) eq_refl Hlen).
    reflexivity.
Qed.

Lemma add_after_removal_raises_witness :
  exists db1,
    remove_assignable_role 7 2
      (mkDatabase [roles_row 7 (array1 [1; 2; 3]%Z)] [] 0) = (Ok PNone, db1)
    /\ add_assignable_role 7 9 db1 = (Raise ArraySubscriptError, db1).
Proof.
  apply (add_after_removal_raises
           (mkDatabase [roles_row 7 (array1 [1; 2; 3]%Z)] [] 0) 7 2 9
           (roles_row 7 (array1 [1; 2; 3]%Z)) [1; 2; 3]%Z).
  - apply NoDup_singleton.
  - reflexivity.
  - reflexivity.
  - simpl. lia.
  - simpl. lia.
Defined.

(** ** Start-up *)

Section StartUpFacts.

Context {Pool Logger Server : Type}.
Variable create_pool : list (string * pyval) -> outcome Pool.
Variable execute_text : Pool -> string -> Server -> outcome unit * Server.

#[local] Abbreviation get_instance' :=
  (get_instance Pool Logger Server create_pool execute_text).

(** Without a logger, or with neither a pool nor a dict of connection data
    that has an item, [get_instance] fails on its assertion at once: nothing
    is logged, no pool is made and no statement reaches the server.  An
    empty dict counts as no connection data. *)
Theorem get_instance_asserts
    (lg : option Logger) (kw : option (list (string * pyval)))
    (po : option Pool) (schema : string) (w : World Server) :
  lg = None \/ (po = None /\ (kw = None \/ kw = Some [])) ->
  exists msg, get_instance' lg kw po schema w = (Failed (AssertionError msg), w).
Proof.
  intros [-> | [-> Hkw]].
  - eexists. reflexivity.
  - destruct lg as [l|]; [|eexists; reflexivity].
    destruct Hkw as [-> | ->]; eexists; reflexivity.
Qed.

(** When the pool cannot be made, [get_instance] fails with the failure of
    [create_pool] before any statement reaches the server; the failure is
    logged, as an error, only if it is an [InterfaceError]. *)
Theorem get_instance_pool_failure
    (lg : Logger) (kv : string * pyval) (kw : list (string * pyval))
    (schema : string) (w : World Server) (f : failure) :
  create_pool (kv :: kw) = Failed f ->
  get_instance' (Some lg) (Some (kv :: kw)) None schema w
  = (Failed f,
     match f with
     | DriverInterfaceError msg => log Server ERROR msg w
     | _ => w
     end).
Proof.
  intros Hf. unfold get_instance. simpl. rewrite Hf. destruct f; reflexivity.
Qed.

(** A controller is returned only after the three statements of
    [make_tables] have run, in their order and each without failing, on the
    pool the controller holds; that pool is the one handed in, if one was;
    and the last record logged is 'Tables created.'. *)
Theorem get_instance_returns_after_tables
    (lg : option Logger) (kw : option (list (string * pyval)))
    (po : option Pool) (name : string) (w w' : World Server)
    (c : PostgresController Pool Logger) :
  get_instance' lg kw po name w = (Done c, w') ->
  lg = Some (logger c)
  /\ schema c = name
  /\ (forall p, po = Some p -> pool c = p)
  /\ (exists sv1 sv2,
        execute_text (pool c) (create_schema_sql name) (server w)
        = (Done tt, sv1)
        /\ execute_text (pool c) (moderation_sql name) sv1 = (Done tt, sv2)
        /\ execute_text (pool c) (servers_sql name) sv2
           = (Done tt, server w'))
  /\ last (records w') = Some (INFO, "Tables created.").
Proof.
  unfold get_instance. destruct lg as [l|]; [|discriminate].
  destruct (negb _); [discriminate|].
  set (made := match po with Some p => _ | None => _ end).
  assert (Hmade : forall p w1, made = (Done p, w1) ->
                    server w1 = server w /\ (forall q, po = Some q -> p = q)).
  { subst made. intros p w1. destruct po as [q|].
    - intros H. injection H as <- <-. split; [reflexivity|].
      intros q' H. injection H as <-. reflexivity.
    - destruct (create_pool _) as [q|[m|m|m]]; try discriminate.
      intros H. injection H as <- <-. split; [reflexivity | discriminate]. }
  destruct made as [[p|f] w1]; [|discriminate].
  destruct (Hmade p w1 eq_refl) as [Hsv Hpo]. clear Hmade.
  unfold make_tables. simpl. rewrite Hsv.
  destruct (execute_text p (create_schema_sql name) (server w))
    as [[[]|f] sv1] eqn:E1; [|discriminate].
  destruct (execute_text p (moderation_sql name) sv1)
    as [[[]|f] sv2] eqn:E2; [|discriminate].
  destruct (execute_text p (servers_sql name) sv2)
    as [[[]|f] sv3] eqn:E3; [|discriminate].
  intros H. injection H as <- <-. simpl.
  split; [reflexivity|]. split; [reflexivity|]. split; [exact Hpo|]. split.
  - exists sv1, sv2. auto.
  - apply last_snoc.
Qed.

End StartUpFacts.

Lemma get_instance_asserts_witness :
  exists msg,
    get_instance unit unit unit (fun _ => Done tt) (fun _ _ sv => (Done tt, sv))
      (Some tt) (Some []) None "yinbot" (mkWorld tt [])
    = (Failed (AssertionError msg), mkWorld tt []).
Proof.
  apply (get_instance_asserts (fun _ => Done tt) (fun _ _ sv => (Done tt, sv))
           (Some tt) (Some []) None "yinbot" (mkWorld tt [])).
  right. split; [reflexivity | right; reflexivity].
Defined.

Lemma get_instance_pool_failure_witness :
  get_instance unit unit unit
    (fun _ => Failed (OtherException "connection refused"))
    (fun _ _ sv => (Done tt, sv))
    (Some tt) (Some [("host", PStr "db")]) None "yinbot" (mkWorld tt [])
  = (Failed (OtherException "connection refused"), mkWorld tt []).
Proof.
  apply (get_instance_pool_failure
           (fun _ => Failed (OtherException "connection refused"))
           (fun _ _ sv => (Done tt, sv))
           tt ("host", PStr "db") [] "yinbot" (mkWorld tt [])
           (OtherException "connection refused")).
  reflexivity.
Defined.

Lemma get_instance_returns_after_tables_witness :
  let run := fun (_ : unit) (_ : string) (sv : unit) => (Done tt, sv) in
  let c := mkPostgresController tt "yinbot"%string tt in
  let w' := mkWorld tt [(INFO, "Creating tables..."%string);
                        (INFO, "Tables created."%string)] in
  Some tt = Some (logger c)
  /\ schema c = "yinbot"%string
  /\ (forall p, Some tt = Some p -> pool c = p)
  /\ (exists sv1 sv2,
        run (pool c) (create_schema_sql "yinbot") (server (mkWorld tt []))
        = (Done tt, sv1)
        /\ run (pool c) (moderation_sql "yinbot") sv1 = (Done tt, sv2)
        /\ run (pool c) (servers_sql "yinbot") sv2 = (Done tt, server w'))
  /\ last (records w') = Some (INFO, "Tables created."%string).
Proof.
  exact (get_instance_returns_after_tables
           (fun _ => Done tt) (fun _ _ sv => (Done tt, sv))
           (Some tt) None (Some tt) "yinbot" (mkWorld tt [])
           (mkWorld tt [(INFO, "Creating tables..."%string);
                        (INFO, "Tables created."%string)])
           (mkPostgresController tt "yinbot" tt) eq_refl).
Defined.

(** ** A guild that has just been added *)

(** After [add_server] on a guild without a row, the guild has the prefix
    "-" in the mapping of [get_server_prefix], an empty list of assignable
    roles, and no role is assignable. *)
Theorem new_guild_defaults (db : Database) (g r : Z) :
  primary_key_ok db -> server_row db g = None ->
  exists db1 d,
    add_server g db = (Ok PNone, db1)
    /\ get_server_prefix db1 = (Ok d, db1)
    /\ d !! g = Some (PStr "-")
    /\ get_assignable_roles g db1 = (Ok (PList []), db1)
    /\ is_role_assignable g r db1 = (Ok false, db1).
Proof.
  intros Hpk Hrow. apply server_row_absent in Hrow.
  set (row := default_row g (current_timestamp db)).
  set (db1 := set_servers db (servers db ++ [row])).
  assert (Honly : only_row (servers db1) g row).
  { exists (servers db), []. repeat split; [assumption | constructor]. }
  pose proof (primary_key_add_server db g Hpk Hrow) as Hpk1.
  pose proof (prefix_entries_row db1 g Hpk1) as Hlook.
  exists db1, (prefix_entries (servers db1) ∅).
  split; [apply add_server_new, Hrow|].
  split; [apply get_server_prefix_entries|]. split; [|split].
  - rewrite Hlook, (only_row_server_row db1 g row Honly). reflexivity.
  - rewrite (get_assignable_roles_only_row db1 g row Honly). reflexivity.
  - rewrite (is_role_assignable_only_row db1 g r row Honly). reflexivity.
Qed.

Lemma new_guild_defaults_witness :
  exists db1 d,
    add_server 7 (mkDatabase [default_row 8 0] [] 3) = (Ok PNone, db1)
    /\ get_server_prefix db1 = (Ok d, db1)
    /\ d !! 7%Z = Some (PStr "-")
    /\ get_assignable_roles 7 db1 = (Ok (PList []), db1)
    /\ is_role_assignable 7 5 db1 = (Ok false, db1).
Proof.
  apply (new_guild_defaults (mkDatabase [default_row 8 0] [] 3) 7 5).
  - apply NoDup_singleton.
  - reflexivity.
Defined.

(** ** The command handlers *)

Section HandlerFacts.

Variable set_prefix_call : Z -> string -> M bool.
Variable add_call rem_call : Z -> Z -> M bool.

#[local] Abbreviation change' :=
  (Admin.change set_prefix_call).

(** The body of [change] never raises, whatever the controller does, and
    the only embed it ever sends is the refusal of a prefix that is longer
    than two characters once stripped: neither the success nor the failure
    of the update is reported to the channel. *)
Theorem change_replies_only_to_refuse (g : Z) (p : string) (ss : Session) :
  fst (change' g p ss) = Ok tt
  /\ sent (snd (change' g p ss))
     = (if 2 <? String.length (strip p)
        then sent ss
             ++ [mkEmbed "Prefix must be less than or equal to two characters"
                   " " 0x651111]
        else sent ss)
  /\ (2 < String.length (strip p) ->
      database (snd (change' g p ss)) = database ss
      /\ server_settings (snd (change' g p ss)) = server_settings ss).
Proof.
  unfold Admin.change.
  destruct (2 <? String.length (strip p)) eqn:Hlen.
  - repeat split.
  - apply Nat.ltb_ge in Hlen.
    assert (Hno : 2 < String.length (strip p) -> False) by lia.
    destruct (set_prefix_call g p (database ss)) as [[[|]|e] db];
      unfold cache_prefix; simpl;
      try destruct (server_settings ss !! g); simpl;
      (split; [reflexivity | split; [reflexivity | intros H; destruct (Hno H)]]).
Qed.

(** The cached settings change only after the controller has reported
    success for a prefix that passed the length test. *)
Theorem change_caches_only_after_success (g : Z) (p : string) (ss : Session) :
  server_settings (snd (change' g p ss)) <> server_settings ss ->
  String.length (strip p) <= 2
  /\ fst (set_prefix_call g p (database ss)) = Ok true.
Proof.
  unfold Admin.change.
  destruct (2 <? String.length (strip p)) eqn:Hlen; [simpl; congruence|].
  apply Nat.ltb_ge in Hlen.
  destruct (set_prefix_call g p (database ss)) as [[[|]|e] db];
    unfold cache_prefix; simpl;
    try destruct (server_settings ss !! g); simpl; try congruence.
  intros _. split; [exact Hlen | reflexivity].
Qed.

(** The length test looks at the stripped prefix, but the controller is
    called with the prefix as it was typed, and that is also what goes
    into the cached settings of the guild when the controller reports
    success. *)
Theorem change_passes_prefix_unstripped
    (g : Z) (p : string) (ss : Session) (d : gmap string pyval) :
  String.length (strip p) <= 2 ->
  server_settings ss !! g = Some d ->
  database (snd (change' g p ss)) = snd (set_prefix_call g p (database ss))
  /\ (fst (set_prefix_call g p (database ss)) = Ok true ->
      server_settings (snd (change' g p ss)) !! g
      = Some (<["prefix"%string := PStr p]> d)).
Proof.
  intros Hlen Hd. unfold Admin.change.
  apply Nat.ltb_ge in Hlen. rewrite Hlen.
  destruct (set_prefix_call g p (database ss)) as [[[|]|e] db];
    unfold cache_prefix; simpl; try rewrite Hd; simpl;
    (split; [reflexivity|]); try discriminate.
  intros _. apply lookup_insert_eq.
Qed.

(** The bodies of [add] and [remove] never raise and send an embed only
    when no channel is mentioned; when channels are mentioned nothing is
    sent, whether the controller changed something, changed nothing or
    raised.  The cached settings are never touched. *)
Theorem modlog_handlers_reply_only_without_mentions
    (g : Z) (mentions : list Channel) (ss : Session) :
  let no_mention :=
    mkEmbed "No channel mentions detected, try again." " " 0x651111 in
  let expected :=
    match mentions with [] => sent ss ++ [no_mention] | _ => sent ss end in
  (fst (Admin.add add_call g mentions ss) = Ok tt
   /\ sent (snd (Admin.add add_call g mentions ss)) = expected
   /\ server_settings (snd (Admin.add add_call g mentions ss))
      = server_settings ss)
  /\ (fst (Admin.remove rem_call g mentions ss) = Ok tt
      /\ sent (snd (Admin.remove rem_call g mentions ss)) = expected
      /\ server_settings (snd (Admin.remove rem_call g mentions ss))
         = server_settings ss).
Proof.
  assert (H : forall call,
             fst (Admin.modlog_body call g mentions ss) = Ok tt
             /\ sent (snd (Admin.modlog_body call g mentions ss))
                = match mentions with
                  | [] => sent ss
                          ++ [mkEmbed "No channel mentions detected, try again."
                                " " 0x651111]
                  | _ => sent ss
                  end
             /\ server_settings (snd (Admin.modlog_body call g mentions ss))
                = server_settings ss).
  { intros call. unfold Admin.modlog_body.
    destruct mentions as [|c rest]; [repeat split|].
    destruct (Admin.each_mention call g (c :: rest) [] (database ss))
      as [[changed|e] db]; [|repeat split].
    destruct changed; repeat split. }
  split; apply H.
Qed.

End HandlerFacts.

Lemma change_caches_only_after_success_witness :
  String.length (strip " !") <= 2
  /\ fst ((fun (_ : Z) (_ : string) (db : Database) => (Ok true, db))
            7%Z " !"%string empty_db) = Ok true.
Proof.
  apply (change_caches_only_after_success
           (fun _ _ db => (Ok true, db)) 7 " !"
           (mkSession empty_db {[ 7%Z := ∅ ]} [])).
  intros H.
  assert (E := f_equal (fun m : gmap Z (gmap string pyval) => m !! 7%Z) H).
  unfold Admin.change, cache_prefix in E. simpl in E.
  rewrite lookup_singleton_eq in E. simpl in E.
  rewrite lookup_insert_eq in E.
  assert (F := f_equal (fun o : option (gmap string pyval) =>
                          o ≫= (fun d => d !! "prefix"%string)) E).
  simpl in F. rewrite lookup_insert_eq, lookup_empty in F. discriminate.
Defined.

Lemma change_passes_prefix_unstripped_witness :
  let call := fun (_ : Z) (_ : string) (db : Database) => (Ok true, db) in
  let ss := mkSession empty_db {[ 7%Z := ∅ ]} [] in
  database (snd (Admin.change call 7 "  !!  " ss))
  = snd (call 7%Z "  !!  "%string (database ss))
  /\ (fst (call 7%Z "  !!  "%string (database ss)) = Ok true ->
      server_settings (snd (Admin.change call 7 "  !!  " ss)) !! 7%Z
      = Some (<["prefix"%string := PStr "  !!  "]> ∅)).
Proof.
  apply (change_passes_prefix_unstripped
           (fun _ _ db => (Ok true, db)) 7 "  !!  "
           (mkSession empty_db {[ 7%Z := ∅ ]} []) ∅).
  - vm_compute. lia.
  - reflexivity.
Defined.
